(** * RepoWatch: GitHub to Discord notifier

    A shallow embedding of the two programs of the repository:

    - [main.py], the one-shot webhook notifier ([Module Webhook]);
    - [vps_main.py], the polling bot ([Module Bot]).

    Python values are modelled as the code uses them: a [str] is a list of
    Unicode code points, a JSON item is a record of the keys the code reads,
    the two process-wide [set()]s are [gset Z], and the effects of the bot
    (HTTP requests, channel sends, console output, writes of the state file)
    are events appended to a trace, with the answers of the outside world
    supplied by oracles that see the trace so far. *)

From Stdlib Require Import ZArith List String Ascii Lia.
From stdpp Require Import base decidable option list gmap pretty sorting.

Local Open Scope Z_scope.
Set Warnings "-clear-no-such-hyp".


(** ** Python strings *)

Module Py.

(** A Python [str]: a sequence of code points. *)
Definition str := list N.

(** ASCII literal of the source text. *)
Definition lit (s : string) : str := map N_of_ascii (list_ascii_of_string s).

(** [s[:n]] *)
Definition slice_to (n : nat) (s : str) : str := firstn n s.

(** [len(s)] *)
Definition len (s : str) : Z := Z.of_nat (length s).

(** [sep.join(l)] *)
Fixpoint join (sep : str) (l : list str) : str :=
  match l with
  | [] => []
  | [x] => x
  | x :: rest => x ++ sep ++ join sep rest
  end.

(** [s.replace(c, by)] for a one-character pattern [c]. *)
Definition replace_char (c : N) (by_ : str) (s : str) : str :=
  flat_map (fun x => if N.eqb x c then by_ else [x]) s.

(** [str(n)] / [f"{n}"] for an integer. *)
Definition of_int (n : Z) : str := lit (pretty n).

(** Truthiness of an optional string: [None] and [""] are falsy. *)
Definition truthy (o : option str) : bool :=
  match o with
  | Some (_ :: _) => true
  | _ => false
  end.

(** Truthiness of a list (or [None]). *)
Definition truthy_list {A} (o : option (list A)) : bool :=
  match o with
  | Some (_ :: _) => true
  | _ => false
  end.

End Py.

Import Py.

(** ** Remote items and messages *)

(** A pull request or issue object of the GitHub REST API, with the keys the
    code reads. [body] is [None] for JSON [null] (or an absent key, which
    [.get] treats alike); [labels] holds the [name] of each label;
    [pull_request] says whether the key of that name is present. *)
Module GitHub.

Record item := Item {
  id : Z;
  number : Z;
  title : str;
  body : option str;
  html_url : str;
  user_login : str;
  user_avatar_url : str;
  created_at : str;
  labels : list str;
  head_ref : str;
  base_ref : str;
  pull_request : bool
}.

End GitHub.

Import GitHub.

Record field := Field {
  f_name : str;
  f_value : str;
  f_inline : bool
}.

(** U+1F500, U+1F41B and U+2192 of the f-strings. *)
Definition glyph_pr : str := [128256%N].
Definition glyph_issue : str := [128027%N].
Definition arrow : str := [8594%N].

Definition no_description : str := lit "No description provided".
Definition ellipsis : str := lit "...".

(** ** main.py *)

Module Webhook.

(** One element of the ["embeds"] array of the webhook payload. *)
Record embed := Embed {
  title : str;
  url : str;
  description : str;
  color : Z;
  fields : list field
}.

(** The event payload of a [pull_request] or [issues] event: the keys read
    by [format_pr] ([pull_request]) and [format_issue] ([issue]) hold the
    item; [repository.full_name] and [action] are shared. *)
Record event := Event {
  action : str;
  subject : item;
  repository_full_name : str
}.

Definition format_pr (event : event) : list embed :=
  let pr := subject event in
  let repo := repository_full_name event in
  [ {| title := glyph_pr ++ lit " New Pull Request: " ++ GitHub.title pr;
       url := html_url pr;
       description :=
         if truthy (body pr) then slice_to 500 (default [] (body pr))
         else no_description;
       color := 0x2ECC71;
       fields :=
         [ Field (lit "Repository") repo true;
           Field (lit "Author") (user_login pr) true;
           Field (lit "Branch")
                 (head_ref pr ++ lit " " ++ arrow ++ lit " " ++ base_ref pr)
                 false ] |} ].

Definition format_issue (event : event) : list embed :=
  let issue := subject event in
  let repo := repository_full_name event in
  [ {| title := glyph_issue ++ lit " New Issue: " ++ GitHub.title issue;
       url := html_url issue;
       description :=
         if truthy (body issue) then slice_to 500 (default [] (body issue))
         else no_description;
       color := 0xE74C3C;
       fields :=
         [ Field (lit "Repository") repo true;
           Field (lit "Author") (user_login issue) true ] |} ].

(** [send_to_discord], by the status code of the answer to the POST:
    [true] when it returns, [false] when it raises [RuntimeError]. *)
Definition send_to_discord (status_code : Z) : bool :=
  (status_code =? 200) || (status_code =? 204).

(** [main]: the payload posted, if any, for the event name and payload. *)
Definition main (event_name : str) (event : event) : option (list embed) :=
  if decide (event_name = lit "pull_request" /\ action event = lit "opened")
  then Some (format_pr event)
  else if decide (event_name = lit "issues" /\ action event = lit "opened")
  then Some (format_issue event)
  else None.

End Webhook.

(** *** Running main.py *)

Module WebhookRun.

(** What [requests.post] does with a payload: it raises, or it answers with
    a status code. *)
Inductive post_answer :=
| PostRaises
| PostStatus (status_code : Z).

(** How a run of [main] ends: nothing is posted; the payload is posted and
    accepted; [requests.post] raises; or [send_to_discord] raises
    [RuntimeError] for the status of the answer. *)
Inductive outcome :=
| Skipped
| Posted (payload : list Webhook.embed)
| ConnectionError (payload : list Webhook.embed)
| RuntimeError (payload : list Webhook.embed) (status_code : Z).

(** [main] with the answer of the webhook to the payload it posts. *)
Definition run (post : list Webhook.embed -> post_answer)
    (event_name : str) (event : Webhook.event) : outcome :=
  match Webhook.main event_name event with
  | None => Skipped
  | Some payload =>
      match post payload with
      | PostRaises => ConnectionError payload
      | PostStatus status_code =>
          if Webhook.send_to_discord status_code then Posted payload
          else RuntimeError payload status_code
      end
  end.

End WebhookRun.

(** ** vps_main.py *)

Module Bot.

(** The configuration read from the environment. *)
Record config := Config {
  DISCORD_CHANNEL_ID : Z;
  GITHUB_REPO : str;
  GITHUB_TOKEN : str;
  CHECK_INTERVAL : Z
}.

(** A [discord.Embed]. [timestamp] holds the text handed to
    [datetime.fromisoformat]; [color] is the RGB value ([Color.green()] is
    [0x2ECC71] and [Color.red()] is [0xE74C3C] in discord.py). *)
Record embed := Embed {
  title : str;
  url : str;
  description : str;
  color : Z;
  timestamp : str;
  fields : list field;
  thumbnail : str;
  footer : str
}.

Definition Color_green : Z := 0x2ECC71.
Definition Color_red : Z := 0xE74C3C.

(** The [description=] argument shared by both embed builders:
    [(x['body'][:500] if x.get('body') else "No description provided")
     + ("..." if x.get('body') and len(x['body']) > 500 else "")]. *)
Definition embed_description (x : item) : str :=
  (if truthy (body x) then slice_to 500 (default [] (body x))
   else no_description)
  ++ (if truthy (body x) && (500 <? len (default [] (body x)))
      then ellipsis else []).

(** The optional "Labels" field: added when the label list is non-empty and
    the joined names are a non-empty string. *)
Definition labels_field (x : item) : list field :=
  match labels x with
  | [] => []
  | _ :: _ =>
      let joined := join (lit ", ") (labels x) in
      match joined with
      | [] => []
      | _ :: _ => [Field (lit "Labels") joined false]
      end
  end.

(** [x['created_at'].replace('Z', '+00:00')], the text that
    [datetime.fromisoformat] reads; the timestamps of the API are ISO 8601
    texts, which it accepts. On any other text [fromisoformat] raises
    [ValueError], inside the delivery loop and outside every [try]: the
    model takes the items as the API delivers them and has no such item, so
    the two embed builders below are total. *)
Definition iso_timestamp (x : item) : str :=
  replace_char 90%N (lit "+00:00") (created_at x).

Definition create_pr_embed (cfg : config) (pr : item) : embed :=
  {| title := glyph_pr ++ lit " New Pull Request: " ++ GitHub.title pr;
     url := html_url pr;
     description := embed_description pr;
     color := Color_green;
     timestamp := iso_timestamp pr;
     fields :=
       [ Field (lit "Repository") (GITHUB_REPO cfg) true;
         Field (lit "Author") (user_login pr) true;
         Field (lit "Branch")
               (head_ref pr ++ lit " " ++ arrow ++ lit " " ++ base_ref pr)
               false ]
       ++ labels_field pr;
     thumbnail := user_avatar_url pr;
     footer := lit "PR #" ++ of_int (number pr) |}.

Definition create_issue_embed (cfg : config) (issue : item) : embed :=
  {| title := glyph_issue ++ lit " New Issue: " ++ GitHub.title issue;
     url := html_url issue;
     description := embed_description issue;
     color := Color_red;
     timestamp := iso_timestamp issue;
     fields :=
       [ Field (lit "Repository") (GITHUB_REPO cfg) true;
         Field (lit "Author") (user_login issue) true ]
       ++ labels_field issue;
     thumbnail := user_avatar_url issue;
     footer := lit "Issue #" ++ of_int (number issue) |}.

(** *** The outside world *)

Inductive kind := PullRequest | Issue.

(** Exceptions, by where they come from. *)
Inductive exn :=
| OSError            (* open / write of the state file *)
| JSONDecodeError    (* json.load, response.json() *)
| AttributeError     (* .get on a value that is not a dict *)
| TypeError          (* set() of a value that is not iterable *)
| ClientError        (* aiohttp transport failure *)
| DiscordException   (* channel.send, ctx.send *)
| MissingPermissions (* the has_permissions check *).

Inductive result (A : Type) :=
| Ok (a : A)
| Raise (e : exn).
Arguments Ok {A} a.
Arguments Raise {A} e.

(** The value under a key of the state file: a list of integers, or
    something [set()] cannot iterate over (a number, [null], ...). *)
Inductive jvalue :=
| JIds (l : list Z)
| JScalar.

(** The state file [seen_items.json] as [load_seen_items] meets it. *)
Inductive file_state :=
| FileAbsent                              (* os.path.exists is false *)
| FileUnreadable                          (* open raises *)
| FileMalformed                           (* json.load raises *)
| FileNotObject                           (* valid JSON, not an object *)
| FileObject (prs issues : option jvalue) (* the keys 'prs' and 'issues' *).

(** An HTTP response: its status and what [await response.json()] gives. *)
Record response := Response {
  status : Z;
  json : result (list item)
}.

Inductive log_line :=
| LogLoaded (prs issues : nat)
| LogLoadError (e : exn)
| LogSaveError (e : exn)
| LogRateLimit
| LogApiError (status : Z)
| LogFetchError (e : exn)
| LogChannelNotFound (channel : Z)
| LogSendError (e : exn)
| LogChecking (repo : str)
| LogNewPR (number : Z) (title : str)
| LogNewIssue (number : Z) (title : str).

Inductive reply :=
| ReplyStatus (repo : str) (prs issues : nat) (interval : Z)
| ReplyReset.

(** What the bot does, in order. [EvNotify] marks a call of
    [send_discord_message]; it records the kind and the item the embed was
    built from, which the channel itself never sees. *)
Inductive event :=
| EvPrint (l : log_line)
| EvGet (url : str) (headers : list (str * str)) (r : result response)
| EvNotify (k : kind) (src : item) (e : embed)
| EvGetChannel (channel : Z) (found : bool)
| EvSend (e : embed) (r : result unit)
| EvSleep (seconds : Z)
| EvWrite (prs issues : list Z) (r : result unit)
| EvReply (m : reply) (r : result unit).

(** The answers of the outside world, each a function of the trace so far. *)
Record world := World {
  session_get : list event -> str -> list (str * str) -> result response;
  get_channel : list event -> Z -> bool;
  channel_send : list event -> embed -> result unit;
  (** a write of the state file: success, or the exception and the file the
      failed write leaves behind *)
  file_write : list event -> list Z -> list Z -> option (exn * file_state);
  ctx_send : list event -> reply -> result unit
}.

(** The process: the two global sets, the state file, the trace. *)
Record bot := Bot {
  seen_prs : gset Z;
  seen_issues : gset Z;
  seen_file : file_state;
  trace : list event
}.

Definition set_seen_prs (s : gset Z) (b : bot) : bot :=
  {| seen_prs := s; seen_issues := seen_issues b;
     seen_file := seen_file b; trace := trace b |}.

Definition set_seen_issues (s : gset Z) (b : bot) : bot :=
  {| seen_prs := seen_prs b; seen_issues := s;
     seen_file := seen_file b; trace := trace b |}.

Definition set_seen_file (f : file_state) (b : bot) : bot :=
  {| seen_prs := seen_prs b; seen_issues := seen_issues b;
     seen_file := f; trace := trace b |}.

Definition add_event (e : event) (b : bot) : bot :=
  {| seen_prs := seen_prs b; seen_issues := seen_issues b;
     seen_file := seen_file b; trace := trace b ++ [e] |}.

(** *** A state monad with exceptions *)

Definition M (A : Type) : Type := bot -> result A * bot.

#[export] Instance M_ret : MRet M := fun A a b => (Ok a, b).

#[export] Instance M_bind : MBind M := fun A B f m b =>
  match m b with
  | (Ok a, b') => f a b'
  | (Raise e, b') => (Raise e, b')
  end.

Definition raise {A} (e : exn) : M A := fun b => (Raise e, b).

(** [try: body except Exception as e: handler e] *)
Definition try_except {A} (body : M A) (handler : exn -> M A) : M A :=
  fun b =>
    match body b with
    | (Ok a, b') => (Ok a, b')
    | (Raise e, b') => handler e b'
    end.

Definition gets {A} (f : bot -> A) : M A := fun b => (Ok (f b), b).
Definition modify (f : bot -> bot) : M unit := fun b => (Ok tt, f b).
Definition emit (e : event) : M unit := modify (add_event e).
Definition print (l : log_line) : M unit := emit (EvPrint l).

(** [for x in l: body x] *)
Fixpoint for_each {A} (l : list A) (body : A -> M unit) : M unit :=
  match l with
  | [] => mret tt
  | x :: rest => body x;; for_each rest body
  end.

(** [new = []; for x in l: new = body new x] *)
Fixpoint fold_for {A S} (l : list A) (s : S) (body : S -> A -> M S) : M S :=
  match l with
  | [] => mret s
  | x :: rest => s' ← body s x; fold_for rest s' body
  end.

(** The global set of a kind: [seen_prs] or [seen_issues]. *)
Definition seen (k : kind) (b : bot) : gset Z :=
  match k with
  | PullRequest => seen_prs b
  | Issue => seen_issues b
  end.

Definition set_seen (k : kind) (s : gset Z) (b : bot) : bot :=
  match k with
  | PullRequest => set_seen_prs s b
  | Issue => set_seen_issues s b
  end.

(** [seen.add(i)] *)
Definition seen_add (k : kind) (i : Z) : M unit :=
  modify (fun b => set_seen k ({[i]} ∪ seen k b) b).

(** [seen.clear()] *)
Definition seen_clear (k : kind) : M unit :=
  modify (set_seen k ∅).

Record context := Context {
  ctx_channel_id : Z;
  ctx_administrator : bool
}.

Inductive op :=
| OpReady
| OpCheck
| OpStatus (ctx : context)
| OpReset (ctx : context).

Section Program.

Variable cfg : config.
Variable W : world.

(** [set(v)] *)
Definition py_set (v : jvalue) : M (gset Z) :=
  match v with
  | JIds l => mret (list_to_set l)
  | JScalar => raise TypeError
  end.

(** The body of the [try] of [load_seen_items]. *)
Definition read_seen_file : M unit :=
  f ← gets seen_file;
  match f with
  | FileAbsent => mret tt
  | FileUnreadable => raise OSError
  | FileMalformed => raise JSONDecodeError
  | FileNotObject => raise AttributeError
  | FileObject prs issues =>
      s ← py_set (default (JIds []) prs);
      modify (set_seen_prs s);;
      s ← py_set (default (JIds []) issues);
      modify (set_seen_issues s);;
      p ← gets seen_prs;
      i ← gets seen_issues;
      print (LogLoaded (size p) (size i))
  end.

Definition load_seen_items : M unit :=
  try_except
    read_seen_file
    (fun e =>
       print (LogLoadError e);;
       modify (set_seen_prs ∅);;
       modify (set_seen_issues ∅)).

(** [with open(SEEN_FILE, 'w') as f: json.dump({...}, f)] *)
Definition write_seen_file (prs issues : list Z) : M unit :=
  fun b =>
    match file_write W (trace b) prs issues with
    | None =>
        (Ok tt,
         add_event (EvWrite prs issues (Ok tt))
           (set_seen_file (FileObject (Some (JIds prs)) (Some (JIds issues))) b))
    | Some (e, leftover) =>
        (Raise e,
         add_event (EvWrite prs issues (Raise e)) (set_seen_file leftover b))
    end.

Definition save_seen_items : M unit :=
  try_except
    (prs ← gets (fun b => elements (seen_prs b));
     issues ← gets (fun b => elements (seen_issues b));
     write_seen_file prs issues)
    (fun e => print (LogSaveError e)).

(** [session.get(url, headers=headers)] *)
Definition http_get (url : str) (headers : list (str * str)) : M response :=
  fun b =>
    let r := session_get W (trace b) url headers in
    (r, add_event (EvGet url headers r) b).

(** [await response.json()] *)
Definition response_json (r : response) : M (list item) :=
  match json r with
  | Ok l => mret l
  | Raise e => raise e
  end.

(** The request headers: [Accept], and [Authorization] if a token is set. *)
Definition request_headers : list (str * str) :=
  [(lit "Accept", lit "application/vnd.github.v3+json")]
  ++ (if truthy (Some (GITHUB_TOKEN cfg))
      then [(lit "Authorization", lit "token " ++ GITHUB_TOKEN cfg)]
      else []).

Definition fetch_github_data (url : str) : M (option (list item)) :=
  let headers := request_headers in
  try_except
    (response ← http_get url headers;
     if status response =? 200 then
       l ← response_json response; mret (Some l)
     else if status response =? 403 then
       print LogRateLimit;; mret None
     else
       print (LogApiError (status response));; mret None)
    (fun e => print (LogFetchError e);; mret None).

(** [bot.get_channel(DISCORD_CHANNEL_ID)] *)
Definition bot_get_channel (channel : Z) : M bool :=
  fun b =>
    let found := get_channel W (trace b) channel in
    (Ok found, add_event (EvGetChannel channel found) b).

(** [await channel.send(embed=embed)] *)
Definition send (e : embed) : M unit :=
  fun b =>
    let r := channel_send W (trace b) e in
    (r, add_event (EvSend e r) b).

Definition send_discord_message (k : kind) (src : item) (e : embed) : M unit :=
  emit (EvNotify k src e);;
  try_except
    (channel ← bot_get_channel (DISCORD_CHANNEL_ID cfg);
     if channel : bool then send e
     else print (LogChannelNotFound (DISCORD_CHANNEL_ID cfg)))
    (fun err => print (LogSendError err)).

Definition sleep (seconds : Z) : M unit := emit (EvSleep seconds).

Definition create_embed (k : kind) (x : item) : embed :=
  match k with
  | PullRequest => create_pr_embed cfg x
  | Issue => create_issue_embed cfg x
  end.

Definition log_new (k : kind) (x : item) : log_line :=
  match k with
  | PullRequest => LogNewPR (number x) (GitHub.title x)
  | Issue => LogNewIssue (number x) (GitHub.title x)
  end.

(** The partition pass, the same loop for both kinds:
    [new = []
     for x in items:
         if x['id'] not in seen: new.append(x); seen.add(x['id'])] *)
Definition partition_new (k : kind) (items : list item) : M (list item) :=
  fold_for items [] (fun new x =>
    let x_id := id x in
    s ← gets (seen k);
    if decide (x_id ∉ s) then
      seen_add k x_id;; mret (new ++ [x])
    else mret new).

(** The delivery pass: [for x in reversed(new): ...] *)
Definition notify_new (k : kind) (new : list item) : M unit :=
  for_each (rev new) (fun x =>
    let embed := create_embed k x in
    send_discord_message k x embed;;
    print (log_new k x);;
    sleep 1).

Definition pulls_url : str :=
  lit "https://api.github.com/repos/" ++ GITHUB_REPO cfg
  ++ lit "/pulls?state=open&sort=created&direction=desc&per_page=10".

Definition issues_url : str :=
  lit "https://api.github.com/repos/" ++ GITHUB_REPO cfg
  ++ lit "/issues?state=open&sort=created&direction=desc&per_page=10".

(** [# Check for new Pull Requests]: the fetch and the [if prs:] block. *)
Definition check_pull_requests : M unit :=
  prs ← fetch_github_data pulls_url;
  if truthy_list prs then
    new_prs ← partition_new PullRequest (default [] prs);
    notify_new PullRequest new_prs
  else mret tt.

(** [# Check for new Issues]: the fetch and the [if issues_data:] block. *)
Definition check_issues : M unit :=
  issues_data ← fetch_github_data issues_url;
  if truthy_list issues_data then
    (* Filter out pull requests (GitHub API returns PRs as issues too) *)
    let issues :=
      filter (fun issue => pull_request issue = false) (default [] issues_data) in
    new_issues ← partition_new Issue issues;
    notify_new Issue new_issues
  else mret tt.

Definition check_repository : M unit :=
  print (LogChecking (GITHUB_REPO cfg));;
  check_pull_requests;;
  check_issues;;
  save_seen_items.

(** [ctx.send(...)] *)
Definition reply_to (m : reply) : M unit :=
  fun b =>
    let r := ctx_send W (trace b) m in
    (r, add_event (EvReply m r) b).

Definition status_command (ctx : context) : M unit :=
  if ctx_channel_id ctx =? DISCORD_CHANNEL_ID cfg then
    p ← gets seen_prs;
    i ← gets seen_issues;
    reply_to (ReplyStatus (GITHUB_REPO cfg) (size p) (size i) (CHECK_INTERVAL cfg))
  else mret tt.

(** [reset], behind its [has_permissions(administrator=True)] check. *)
Definition reset (ctx : context) : M unit :=
  if ctx_administrator ctx then
    if ctx_channel_id ctx =? DISCORD_CHANNEL_ID cfg then
      seen_clear PullRequest;;
      seen_clear Issue;;
      save_seen_items;;
      reply_to ReplyReset
    else mret tt
  else raise MissingPermissions.

(** One thing the running process does: [on_ready] loading the state, one
    iteration of the task loop, or a command. *)
Definition run_op (o : op) : M unit :=
  match o with
  | OpReady => load_seen_items
  | OpCheck => check_repository
  | OpStatus ctx => status_command ctx
  | OpReset ctx => reset ctx
  end.

(** The state after an operation; an exception of a command is reported by
    the command framework and the process goes on. *)
Definition step (o : op) (b : bot) : bot := snd (run_op o b).

Definition run (ops : list op) (b : bot) : bot :=
  fold_left (fun b o => step o b) ops b.

End Program.

(** *** Reading states and traces *)

(** The state with further events appended to its trace. *)
Definition extend (t : list event) (b : bot) : bot :=
  {| seen_prs := seen_prs b; seen_issues := seen_issues b;
     seen_file := seen_file b; trace := trace b ++ t |}.

#[export] Instance kind_eq_dec : EqDecision kind.
Proof. solve_decision. Defined.

(** The calls of [send_discord_message] in a trace, in order. *)
Definition calls (t : list event) : list (kind * item * embed) :=
  omap (fun e => match e with
                 | EvNotify k x em => Some (k, x, em)
                 | _ => None
                 end) t.

(** The items of a kind handed to [send_discord_message], in order. *)
Definition notified (k : kind) (t : list event) : list item :=
  omap (fun c : kind * item * embed =>
          if decide (c.1.1 = k) then Some c.1.2 else None) (calls t).

(** The identifiers of a list of items. *)
Definition ids (l : list item) : gset Z := list_to_set (id <$> l).

(** The items of a list that the partition pass appends to its [new] list,
    for the set [s] of identifiers seen when the pass starts: those whose
    identifier is neither in [s] nor carried by an earlier item. *)
Fixpoint new_of (s : gset Z) (l : list item) : list item :=
  match l with
  | [] => []
  | x :: rest =>
      if decide (id x ∉ s) then x :: new_of ({[id x]} ∪ s) rest
      else new_of s rest
  end.

(** The items of the issues listing that are issues. *)
Definition issues_only (l : list item) : list item :=
  filter (fun issue => pull_request issue = false) l.

(** The list a fetch hands to the cycle, read off the answer to the request;
    [None] is the "unavailable" signal. *)
Definition fetched (r : result response) : option (list item) :=
  match r with
  | Ok resp =>
      if status resp =? 200 then
        match json resp with
        | Ok l => Some l
        | Raise _ => None
        end
      else None
  | Raise _ => None
  end.

(** What a fetch prints after its request. *)
Definition fetch_log (r : result response) : list event :=
  match r with
  | Ok resp =>
      if status resp =? 200 then
        match json resp with
        | Ok _ => []
        | Raise e => [EvPrint (LogFetchError e)]
        end
      else if status resp =? 403 then [EvPrint LogRateLimit]
      else [EvPrint (LogApiError (status resp))]
  | Raise e => [EvPrint (LogFetchError e)]
  end.

(** What [save_seen_items] leaves in the trace and in the state file when
    it runs in state [b]. *)
Definition save_events (W : world) (b : bot) : list event :=
  let prs := elements (seen_prs b) in
  let issues := elements (seen_issues b) in
  match file_write W (trace b) prs issues with
  | None => [EvWrite prs issues (Ok tt)]
  | Some (e, _) => [EvWrite prs issues (Raise e); EvPrint (LogSaveError e)]
  end.

Definition saved_file (W : world) (b : bot) : file_state :=
  let prs := elements (seen_prs b) in
  let issues := elements (seen_issues b) in
  match file_write W (trace b) prs issues with
  | None => FileObject (Some (JIds prs)) (Some (JIds issues))
  | Some (_, leftover) => leftover
  end.

(** The state an action leaves behind. *)
Definition exec {A} (m : M A) (b : bot) : bot := snd (m b).

(** The events of a trace that come after a given prefix. *)
Definition since (before after : list event) : list event :=
  drop (length before) after.

(** The answers to the two requests of the cycle that starts in state [b]:
    the pull-request listing is asked for after the "Checking" line, the
    issue listing after the pull-request half of the cycle. *)
Definition pulls_answer (cfg : config) (W : world) (b : bot) : result response :=
  session_get W (trace b ++ [EvPrint (LogChecking (GITHUB_REPO cfg))])
    (pulls_url cfg) (request_headers cfg).

Definition issues_answer (cfg : config) (W : world) (b : bot) : result response :=
  session_get W
    (trace (exec (check_pull_requests cfg W)
              (extend [EvPrint (LogChecking (GITHUB_REPO cfg))] b)))
    (issues_url cfg) (request_headers cfg).

(** The events of the cycle that starts in state [b]. *)
Definition cycle_events (cfg : config) (W : world) (b : bot) : list event :=
  since (trace b) (trace (step cfg W OpCheck b)).

(** How often an identifier occurs in a list of items. *)
Definition count_id (i : Z) (l : list item) : nat :=
  length (filter (fun x => id x = i) l).

(** The part of a bot embed that a webhook embed can carry: everything but
    the timestamp, the thumbnail and the footer. *)
Definition webhook_shape (e : embed) : Webhook.embed :=
  {| Webhook.title := title e;
     Webhook.url := url e;
     Webhook.description := description e;
     Webhook.color := color e;
     Webhook.fields := fields e |}.

(** An operation that is not an effective reset (and not a reload). *)
Definition keeps_seen (cfg : config) (o : op) : Prop :=
  match o with
  | OpReady => False
  | OpCheck | OpStatus _ => True
  | OpReset ctx =>
      ctx_administrator ctx = false
      \/ ctx_channel_id ctx <> DISCORD_CHANNEL_ID cfg
  end.

(** *** More readings of a trace *)

(** The embeds handed to [channel.send], each with how the call ended. *)
Definition sends (t : list event) : list (embed * result unit) :=
  omap (fun e => match e with
                 | EvSend em r => Some (em, r)
                 | _ => None
                 end) t.

(** The embeds the channel accepted. *)
Definition delivered (t : list event) : list embed :=
  omap (fun e => match e with
                 | EvSend em (Ok _) => Some em
                 | _ => None
                 end) t.

(** The [asyncio.sleep] calls, by their seconds. *)
Definition sleeps (t : list event) : list Z :=
  omap (fun e => match e with
                 | EvSleep n => Some n
                 | _ => None
                 end) t.

(** The GET requests, by url and headers. *)
Definition requests (t : list event) : list (str * list (str * str)) :=
  omap (fun e => match e with
                 | EvGet u h _ => Some (u, h)
                 | _ => None
                 end) t.

(** The lists handed to [json.dump]. *)
Definition writes (t : list event) : list (list Z * list Z) :=
  omap (fun e => match e with
                 | EvWrite p i _ => Some (p, i)
                 | _ => None
                 end) t.

(** The replies of the commands. *)
Definition replies (t : list event) : list reply :=
  omap (fun e => match e with
                 | EvReply m _ => Some m
                 | _ => None
                 end) t.

(** The lines printed. *)
Definition printed (t : list event) : list log_line :=
  omap (fun e => match e with
                 | EvPrint l => Some l
                 | _ => None
                 end) t.

(** The events of one iteration of a delivery loop for item [x], when the
    trace before it is [tr]: the call of [send_discord_message] with what it
    does, the "New ... detected" line and the sleep. *)
Definition notify_block (cfg : config) (W : world) (tr : list event)
    (k : kind) (x : item) : list event :=
  let e := create_embed cfg k x in
  let c := DISCORD_CHANNEL_ID cfg in
  let t1 := tr ++ [EvNotify k x e] in
  let found := get_channel W t1 c in
  [EvNotify k x e; EvGetChannel c found]
  ++ (if found then
        match channel_send W (t1 ++ [EvGetChannel c found]) e with
        | Ok u => [EvSend e (Ok u)]
        | Raise err => [EvSend e (Raise err); EvPrint (LogSendError err)]
        end
      else [EvPrint (LogChannelNotFound c)])
  ++ [EvPrint (log_new k x); EvSleep 1].

(** The events of a delivery loop over [l], in the order of [l]. *)
Fixpoint notify_blocks (cfg : config) (W : world) (tr : list event)
    (k : kind) (l : list item) : list event :=
  match l with
  | [] => []
  | x :: rest =>
      notify_block cfg W tr k x
      ++ notify_blocks cfg W (tr ++ notify_block cfg W tr k x) k rest
  end.

(** A process start: the module-level [seen_prs = set()] and
    [seen_issues = set()], with the state file as the last run left it. *)
Definition restart (b : bot) : bot :=
  {| seen_prs := ∅; seen_issues := ∅;
     seen_file := seen_file b; trace := trace b |}.

(** The result of an action, without the state. *)
Definition eval {A} (m : M A) (b : bot) : result A := fst (m b).

(** The rhythm of a delivery loop: a call of [send_discord_message], a call
    of [channel.send], a sleep. *)
Inductive beat :=
| Called
| Sent
| Slept (seconds : Z).

Definition beats (t : list event) : list beat :=
  omap (fun e => match e with
                 | EvNotify _ _ _ => Some Called
                 | EvSend _ _ => Some Sent
                 | EvSleep n => Some (Slept n)
                 | _ => None
                 end) t.

(** The beats of one iteration of a delivery loop, by whether
    [channel.send] was reached: the call, the send if any, then the
    one-second sleep. *)
Definition block_beats (reached : bool) : list beat :=
  if reached then [Called; Sent; Slept 1] else [Called; Slept 1].

End Bot.

Import Bot.

(** ** Sample data *)

Module Examples.

Definition cfg : config :=
  {| DISCORD_CHANNEL_ID := 42;
     GITHUB_REPO := lit "octo/repo";
     GITHUB_TOKEN := [];
     CHECK_INTERVAL := 60 |}.

Definition sample (i : Z) (b : option str) (created : string)
    (names : list str) (marker : bool) : item :=
  {| id := i; number := i; GitHub.title := lit "Fix the parser"; body := b;
     html_url := lit "https://github.com/octo/repo/pull/1";
     user_login := lit "octocat";
     user_avatar_url := lit "https://avatars.githubusercontent.com/u/1";
     created_at := lit created; labels := names;
     head_ref := lit "fix"; base_ref := lit "main";
     pull_request := marker |}.

Definition body_600 : str := repeat 97%N 600.
Definition body_400 : str := repeat 98%N 400.

Definition item_600 : item :=
  sample 1 (Some body_600) "2024-05-01T10:00:00Z" [] false.
Definition item_400 : item :=
  sample 2 (Some body_400) "2024-05-01T10:00:00Z" [] false.
Definition item_null : item :=
  sample 3 None "2024-05-01T10:00:00Z" [] false.
Definition item_labelled : item :=
  sample 4 (Some (lit "short")) "2024-05-01T10:00:00Z" [lit "bug"] false.
Definition item_plain : item :=
  sample 5 (Some (lit "short")) "2024-05-01T10:00:00Z" [] false.

Definition event_of (x : item) : Webhook.event :=
  {| Webhook.action := lit "opened";
     Webhook.subject := x;
     Webhook.repository_full_name := lit "octo/repo" |}.

(** The number spelled by the digits of a text: for a timestamp such as
    [2024-05-01T10:00:00Z] this is [20240501100000], which grows with the
    instant the timestamp denotes. *)
Definition instant (s : str) : Z :=
  fold_left (fun acc c =>
               if (48 <=? c)%N && (c <=? 57)%N
               then 10 * acc + (Z.of_N c - 48) else acc) s 0.

Definition t1 : item := sample 11 None "2024-05-01T10:00:00Z" [] false.
Definition t2 : item := sample 12 None "2024-05-02T10:00:00Z" [] false.
Definition t3 : item := sample 13 None "2024-05-03T10:00:00Z" [] false.
Definition marked : item := sample 14 None "2024-05-04T10:00:00Z" [] true.

(** A world whose pull-request listing is [prs] and whose issue listing is
    [issues], where every send fails and every write succeeds. *)
Definition world_of (prs issues : result response) : world :=
  {| session_get := fun _ url _ =>
       if decide (url = pulls_url cfg) then prs else issues;
     get_channel := fun _ _ => true;
     channel_send := fun _ _ => Raise DiscordException;
     file_write := fun _ _ _ => None;
     ctx_send := fun _ _ => Ok tt |}.

Definition listing (l : list item) : result response :=
  Ok {| status := 200; json := Ok l |}.

(** A 200 response whose body is not JSON. *)
Definition garbled : result response :=
  Ok {| status := 200; json := Raise JSONDecodeError |}.

(** A 403 response. *)
Definition rate_limited : result response :=
  Ok {| status := 403; json := Raise JSONDecodeError |}.

(** One open pull request; the issue listing repeats a pull request next
    to one issue. *)
Definition small_repo : world :=
  world_of (listing [t2]) (listing [marked; t1]).

Definition fresh : bot :=
  {| seen_prs := ∅; seen_issues := ∅; seen_file := FileAbsent; trace := [] |}.

Definition admin_here : context :=
  {| ctx_channel_id := 42; ctx_administrator := true |}.

(** A world like [world_of] in which the channel is known and accepts
    every message. *)
Definition reachable (prs issues : result response) : world :=
  {| session_get := session_get (world_of prs issues);
     get_channel := fun _ _ => true;
     channel_send := fun _ _ => Ok tt;
     file_write := fun _ _ _ => None;
     ctx_send := fun _ _ => Ok tt |}.

(** A world like [world_of] in which the channel is not known. *)
Definition unreachable (prs issues : result response) : world :=
  {| session_get := session_get (world_of prs issues);
     get_channel := fun _ _ => false;
     channel_send := fun _ _ => Ok tt;
     file_write := fun _ _ _ => None;
     ctx_send := fun _ _ => Ok tt |}.

(** A world like [world_of] in which no write of the state file succeeds. *)
Definition read_only (prs issues : result response) : world :=
  {| session_get := session_get (world_of prs issues);
     get_channel := fun _ _ => true;
     channel_send := fun _ _ => Ok tt;
     file_write := fun _ _ _ => Some (OSError, FileMalformed);
     ctx_send := fun _ _ => Ok tt |}.

(** A world like [world_of] in which every write of the state file raises
    and leaves the file with two empty lists, as an earlier reset wrote it. *)
Definition write_protected (prs issues : result response) : world :=
  {| session_get := session_get (world_of prs issues);
     get_channel := fun _ _ => true;
     channel_send := fun _ _ => Ok tt;
     file_write := fun _ _ _ =>
       Some (OSError, FileObject (Some (JIds [])) (Some (JIds [])));
     ctx_send := fun _ _ => Ok tt |}.

(** The state a reset leaves behind: empty sets, and two empty lists in
    the state file. *)
Definition after_reset : bot :=
  {| seen_prs := ∅; seen_issues := ∅;
     seen_file := FileObject (Some (JIds [])) (Some (JIds []));
     trace := [] |}.

Definition with_token : config :=
  {| DISCORD_CHANNEL_ID := 42;
     GITHUB_REPO := lit "octo/repo";
     GITHUB_TOKEN := lit "ghp_abc";
     CHECK_INTERVAL := 60 |}.

Definition guest_here : context :=
  {| ctx_channel_id := 42; ctx_administrator := false |}.

Definition admin_elsewhere : context :=
  {| ctx_channel_id := 7; ctx_administrator := true |}.

(** A second item with the identifier of [t1]. *)
Definition t1_again : item :=
  sample 11 (Some (lit "again")) "2024-05-05T10:00:00Z" [] false.

Definition two_labels : item :=
  sample 6 None "2024-05-01T10:00:00Z" [lit "bug"; lit "ui"] false.

Definition empty_label : item :=
  sample 7 None "2024-05-01T10:00:00Z" [[]] false.

End Examples.

(** * Properties *)

(** ** The monad and the trace *)

Section Facts.

Variable cfg : config.
Variable W : world.

Lemma bind_run {A B} (m : M A) (f : A -> M B) (b b1 : bot) (a : A) :
  m b = (Ok a, b1) -> (m ≫= f) b = f a b1.
Proof.
  intros H. unfold mbind, M_bind. by rewrite H.
Qed.

Lemma extend_nil (b : bot) : extend [] b = b.
Proof. destruct b; unfold extend; simpl. by rewrite app_nil_r. Qed.

Lemma extend_extend (t t' : list event) (b : bot) :
  extend t (extend t' b) = extend (t' ++ t) b.
Proof. unfold extend; simpl. by rewrite app_assoc. Qed.

Lemma add_event_extend (e : event) (b : bot) : add_event e b = extend [e] b.
Proof. reflexivity. Qed.

Lemma calls_app (t t' : list event) : calls (t ++ t') = calls t ++ calls t'.
Proof. apply omap_app. Qed.

Lemma notified_app (k : kind) (t t' : list event) :
  notified k (t ++ t') = notified k t ++ notified k t'.
Proof. unfold notified. by rewrite calls_app, omap_app. Qed.

Lemma since_app (t t' : list event) : since t (t ++ t') = t'.
Proof. unfold since. by rewrite drop_app_length. Qed.

(** ** The partition pass *)

Lemma set_seen_same (k : kind) (b : bot) : set_seen k (seen k b) b = b.
Proof. by destruct k, b. Qed.

Lemma set_seen_twice (k : kind) (s s' : gset Z) (b : bot) :
  set_seen k s (set_seen k s' b) = set_seen k s b.
Proof. by destruct k. Qed.

Lemma seen_set_seen (k : kind) (s : gset Z) (b : bot) :
  seen k (set_seen k s b) = s.
Proof. by destruct k. Qed.

Lemma partition_loop (k : kind) (items acc : list item) (b : bot) :
  fold_for items acc (fun new x =>
    let x_id := id x in
    s ← gets (seen k);
    if decide (x_id ∉ s) then
      seen_add k x_id;; mret (new ++ [x])
    else mret new) b
  = (Ok (acc ++ new_of (seen k b) items),
     set_seen k (ids items ∪ seen k b) b).
Proof.
  revert acc b. induction items as [|x items IH]; intros acc b; simpl.
  - unfold mret, M_ret. rewrite app_nil_r.
    replace (ids [] ∪ seen k b) with (seen k b) by (unfold ids; set_solver).
    by rewrite set_seen_same.
  - unfold mbind at 1, M_bind at 1. unfold mbind at 1, M_bind at 1.
    unfold gets at 1. simpl.
    destruct (decide (id x ∉ seen k b)) as [Hnew|Hold].
    + unfold mbind at 1, M_bind at 1. unfold seen_add, modify at 1.
      unfold mret at 1, M_ret at 1. rewrite IH.
      rewrite seen_set_seen, set_seen_twice, <- app_assoc. simpl.
      do 2 f_equal. unfold ids. simpl. set_solver.
    + unfold mret at 1, M_ret at 1. rewrite IH.
      do 2 f_equal. unfold ids. simpl.
      apply dec_stable in Hold. set_solver.
Qed.

Lemma partition_new_run (k : kind) (items : list item) (b : bot) :
  partition_new k items b
  = (Ok (new_of (seen k b) items), set_seen k (ids items ∪ seen k b) b).
Proof. unfold partition_new. by rewrite partition_loop. Qed.

(** ** Delivery *)

Lemma send_discord_message_run (k : kind) (x : item) (e : embed) (b : bot) :
  exists t,
    send_discord_message cfg W k x e b = (Ok tt, extend (EvNotify k x e :: t) b)
    /\ calls t = [].
Proof.
  unfold send_discord_message, emit, modify, try_except, bot_get_channel.
  unfold mbind, M_bind. simpl.
  destruct (get_channel W (trace b ++ [EvNotify k x e]) (DISCORD_CHANNEL_ID cfg))
    eqn:Hch.
  - unfold send. simpl.
    match goal with |- context [channel_send W ?t e] =>
      destruct (channel_send W t e) as [[]|err] eqn:Hs end.
    + eexists [EvGetChannel _ true; EvSend e (Ok tt)]. split; [|done].
      unfold extend, add_event; simpl. by rewrite <- !app_assoc.
    + eexists [EvGetChannel _ true; EvSend e (Raise err);
               EvPrint (LogSendError err)].
      split; [|done].
      unfold print, emit, modify, extend, add_event; simpl.
      by rewrite <- !app_assoc.
  - eexists [EvGetChannel _ false; EvPrint (LogChannelNotFound _)].
    split; [|done].
    unfold print, emit, modify, extend, add_event; simpl.
    by rewrite <- !app_assoc.
Qed.

Lemma notify_one_run (k : kind) (x : item) (b : bot) :
  exists t,
    (send_discord_message cfg W k x (create_embed cfg k x);;
     print (log_new k x);;
     sleep 1) b
    = (Ok tt, extend (EvNotify k x (create_embed cfg k x) :: t) b)
    /\ calls t = [].
Proof.
  destruct (send_discord_message_run k x (create_embed cfg k x) b)
    as (t1 & Hrun & Hq).
  exists (t1 ++ [EvPrint (log_new k x); EvSleep 1]). split.
  - rewrite (bind_run _ _ _ _ _ Hrun).
    unfold print, sleep, emit, modify, mbind, M_bind, extend, add_event; simpl.
    by rewrite <- !app_assoc.
  - by rewrite calls_app, Hq.
Qed.

Lemma notify_loop (k : kind) (l : list item) (b : bot) :
  exists t,
    for_each l (fun x =>
      send_discord_message cfg W k x (create_embed cfg k x);;
      print (log_new k x);;
      sleep 1) b = (Ok tt, extend t b)
    /\ calls t = map (fun x => (k, x, create_embed cfg k x)) l.
Proof.
  revert b. induction l as [|x l IH]; intros b; simpl.
  - exists []. by rewrite extend_nil.
  - destruct (notify_one_run k x b) as (t1 & Hrun & Hq).
    rewrite (bind_run _ _ _ _ _ Hrun).
    destruct (IH (extend (EvNotify k x (create_embed cfg k x) :: t1) b))
      as (t2 & Hrest & Hc).
    exists ((EvNotify k x (create_embed cfg k x) :: t1) ++ t2). split.
    + by rewrite Hrest, extend_extend.
    + rewrite calls_app, <- Hc. simpl. by rewrite Hq.
Qed.

Lemma notify_new_run (k : kind) (new : list item) (b : bot) :
  exists t,
    notify_new cfg W k new b = (Ok tt, extend t b)
    /\ calls t = map (fun x => (k, x, create_embed cfg k x)) (rev new).
Proof. apply notify_loop. Qed.

(** ** Fetching and saving *)

Lemma fetch_github_data_run (url : str) (b : bot) :
  fetch_github_data cfg W url b
  = let r := session_get W (trace b) url (request_headers cfg) in
    (Ok (fetched r), extend (EvGet url (request_headers cfg) r :: fetch_log r) b).
Proof.
  unfold fetch_github_data, try_except, http_get, response_json.
  unfold mbind, M_bind. simpl.
  destruct (session_get W (trace b) url (request_headers cfg))
    as [resp|err]; simpl.
  - destruct (status resp =? 200) eqn:H200.
    + destruct (json resp) as [l|err]; simpl; [done|].
      unfold print, emit, modify, raise, extend, add_event; simpl.
      by rewrite <- app_assoc.
    + destruct (status resp =? 403);
        unfold print, emit, modify, extend, add_event; simpl;
        by rewrite <- app_assoc.
  - unfold print, emit, modify, extend, add_event; simpl.
    by rewrite <- app_assoc.
Qed.

Lemma save_seen_items_run (b : bot) :
  save_seen_items W b
  = (Ok tt, extend (save_events W b) (set_seen_file (saved_file W b) b)).
Proof.
  unfold save_seen_items, try_except, write_seen_file, save_events, saved_file.
  unfold mbind, M_bind, gets. simpl.
  destruct (file_write W (trace b) (elements (seen_prs b))
              (elements (seen_issues b))) as [[e leftover]|]; [|done].
  unfold print, emit, modify, extend, add_event; simpl.
  by rewrite <- app_assoc.
Qed.

(** ** The two halves of a cycle *)

Lemma check_block_run (k : kind) (l : list item) (b : bot) :
  exists t,
    (new ← partition_new k l; notify_new cfg W k new) b
    = (Ok tt, extend t (set_seen k (ids l ∪ seen k b) b))
    /\ calls t
       = map (fun x => (k, x, create_embed cfg k x)) (rev (new_of (seen k b) l)).
Proof.
  rewrite (bind_run _ _ _ _ _ (partition_new_run k l b)).
  apply notify_new_run.
Qed.

Lemma ids_nil : ids [] = ∅.
Proof. reflexivity. Qed.

Lemma skip_block_run (k : kind) (b : bot) :
  exists t,
    (mret tt : M unit) b = (Ok tt, extend t (set_seen k (ids [] ∪ seen k b) b))
    /\ calls t
       = map (fun x => (k, x, create_embed cfg k x)) (rev (new_of (seen k b) [])).
Proof.
  exists []. split; [|done].
  rewrite ids_nil, union_empty_l_L, set_seen_same, extend_nil. done.
Qed.

Lemma check_pull_requests_run (b : bot) :
  let r := session_get W (trace b) (pulls_url cfg) (request_headers cfg) in
  let l := default [] (fetched r) in
  exists t,
    check_pull_requests cfg W b
    = (Ok tt,
       extend (EvGet (pulls_url cfg) (request_headers cfg) r :: fetch_log r ++ t)
         (set_seen_prs (ids l ∪ seen_prs b) b))
    /\ calls t
       = map (fun x => (PullRequest, x, create_pr_embed cfg x))
           (rev (new_of (seen_prs b) l)).
Proof.
  intros r l. unfold check_pull_requests.
  rewrite (bind_run _ _ _ _ _ (fetch_github_data_run (pulls_url cfg) b)).
  fold r. set (b1 := extend _ b).
  assert (exists t,
    (if truthy_list (fetched r)
     then new ← partition_new PullRequest l; notify_new cfg W PullRequest new
     else mret tt) b1
    = (Ok tt, extend t (set_seen PullRequest (ids l ∪ seen PullRequest b1) b1))
    /\ calls t = map (fun x => (PullRequest, x, create_embed cfg PullRequest x))
                   (rev (new_of (seen PullRequest b1) l))) as (t & Hrun & Hc).
  { unfold l. destruct (fetched r) as [[|x l']|];
      [exact (skip_block_run PullRequest b1) | apply check_block_run
      | exact (skip_block_run PullRequest b1)]. }
  exists t. split; [|exact Hc].
  unfold l in *. rewrite Hrun. unfold b1, extend; simpl.
  by rewrite <- app_assoc.
Qed.

Lemma check_issues_run (b : bot) :
  let r := session_get W (trace b) (issues_url cfg) (request_headers cfg) in
  let l := issues_only (default [] (fetched r)) in
  exists t,
    check_issues cfg W b
    = (Ok tt,
       extend (EvGet (issues_url cfg) (request_headers cfg) r :: fetch_log r ++ t)
         (set_seen_issues (ids l ∪ seen_issues b) b))
    /\ calls t
       = map (fun x => (Issue, x, create_issue_embed cfg x))
           (rev (new_of (seen_issues b) l)).
Proof.
  intros r l. unfold check_issues.
  rewrite (bind_run _ _ _ _ _ (fetch_github_data_run (issues_url cfg) b)).
  fold r. set (b1 := extend _ b).
  assert (exists t,
    (if truthy_list (fetched r)
     then new ← partition_new Issue l; notify_new cfg W Issue new
     else mret tt) b1
    = (Ok tt, extend t (set_seen Issue (ids l ∪ seen Issue b1) b1))
    /\ calls t = map (fun x => (Issue, x, create_embed cfg Issue x))
                   (rev (new_of (seen Issue b1) l))) as (t & Hrun & Hc).
  { unfold l. destruct (fetched r) as [[|x l']|];
      [exact (skip_block_run Issue b1) | apply check_block_run
      | exact (skip_block_run Issue b1)]. }
  exists t. split; [|exact Hc].
  unfold l, issues_only in *. rewrite Hrun. unfold b1, extend; simpl.
  by rewrite <- app_assoc.
Qed.

(** ** A whole cycle *)

Lemma check_repository_run (b : bot) :
  let rp := pulls_answer cfg W b in
  let lp := default [] (fetched rp) in
  let ri := issues_answer cfg W b in
  let li := issues_only (default [] (fetched ri)) in
  exists tp ti b2,
    calls tp = map (fun x => (PullRequest, x, create_pr_embed cfg x))
                 (rev (new_of (seen_prs b) lp))
    /\ calls ti = map (fun x => (Issue, x, create_issue_embed cfg x))
                    (rev (new_of (seen_issues b) li))
    /\ seen_prs b2 = ids lp ∪ seen_prs b
    /\ seen_issues b2 = ids li ∪ seen_issues b
    /\ seen_file b2 = seen_file b
    /\ trace b2
       = trace b
         ++ [EvPrint (LogChecking (GITHUB_REPO cfg))]
         ++ (EvGet (pulls_url cfg) (request_headers cfg) rp :: fetch_log rp ++ tp)
         ++ (EvGet (issues_url cfg) (request_headers cfg) ri :: fetch_log ri ++ ti)
    /\ check_repository cfg W b
       = (Ok tt, extend (save_events W b2) (set_seen_file (saved_file W b2) b2)).
Proof.
  intros rp lp ri li.
  set (b0 := extend [EvPrint (LogChecking (GITHUB_REPO cfg))] b).
  destruct (check_pull_requests_run b0) as (tp & Hp & Hcp).
  fold rp in Hp.
  change (session_get W (trace b0) (pulls_url cfg) (request_headers cfg))
    with rp in Hp, Hcp.
  fold lp in Hp, Hcp.
  set (b1 := extend _ (set_seen_prs (ids lp ∪ seen_prs b0) b0)) in Hp.
  destruct (check_issues_run b1) as (ti & Hi & Hci).
  assert (session_get W (trace b1) (issues_url cfg) (request_headers cfg) = ri)
    as Hri.
  { unfold ri, issues_answer, exec. fold b0. by rewrite Hp. }
  rewrite Hri in Hi, Hci. fold li in Hi, Hci.
  set (b2 := extend _ (set_seen_issues (ids li ∪ seen_issues b1) b1)) in Hi.
  exists tp, ti, b2.
  split; [exact Hcp|]. split; [exact Hci|].
  split; [done|]. split; [done|]. split; [done|]. split.
  - unfold b2, b1, b0, extend; simpl.
    rewrite <- !app_assoc. simpl. by rewrite <- !app_assoc.
  - unfold check_repository.
    assert (print (LogChecking (GITHUB_REPO cfg)) b = (Ok tt, b0)) as H0
      by reflexivity.
    rewrite (bind_run _ _ _ _ _ H0), (bind_run _ _ _ _ _ Hp),
      (bind_run _ _ _ _ _ Hi).
    apply save_seen_items_run.
Qed.

Lemma calls_fetch_log (r : result response) : calls (fetch_log r) = [].
Proof.
  destruct r as [resp|e]; simpl; [|done].
  destruct (status resp =? 200); [by destruct (json resp)|].
  by destruct (status resp =? 403).
Qed.

Lemma calls_save_events (b : bot) : calls (save_events W b) = [].
Proof.
  unfold save_events.
  by destruct (file_write W (trace b) (elements (seen_prs b))
                 (elements (seen_issues b))) as [[e leftover]|].
Qed.

Lemma notified_of_calls (k k' : kind) (f : item -> embed) (l : list item)
    (t : list event) :
  calls t = map (fun x => (k', x, f x)) l ->
  notified k t = if decide (k' = k) then l else [].
Proof.
  intros H. unfold notified. rewrite H. clear H.
  unfold omap. destruct (decide (k' = k)) as [Hk|Hk].
  - induction l as [|x l IH]; simpl; [done|].
    rewrite decide_True by done. by rewrite IH.
  - induction l as [|x l IH]; simpl; [done|].
    by rewrite decide_False by done.
Qed.

(** The events, the notified items and the sets of one cycle. *)
Lemma cycle_summary (b : bot) :
  let lp := default [] (fetched (pulls_answer cfg W b)) in
  let li := issues_only (default [] (fetched (issues_answer cfg W b))) in
  let b' := step cfg W OpCheck b in
  exists t b2,
    cycle_events cfg W b = t ++ save_events W b2
    /\ trace b2 = trace b ++ t
    /\ trace b' = trace b ++ cycle_events cfg W b
    /\ seen_prs b2 = seen_prs b' /\ seen_issues b2 = seen_issues b'
    /\ seen_file b' = saved_file W b2
    /\ seen_prs b' = ids lp ∪ seen_prs b
    /\ seen_issues b' = ids li ∪ seen_issues b
    /\ notified PullRequest (cycle_events cfg W b) = rev (new_of (seen_prs b) lp)
    /\ notified Issue (cycle_events cfg W b) = rev (new_of (seen_issues b) li)
    /\ In (EvGet (pulls_url cfg) (request_headers cfg) (pulls_answer cfg W b)) t
    /\ In (EvGet (issues_url cfg) (request_headers cfg) (issues_answer cfg W b)) t
    /\ check_repository cfg W b = (Ok tt, b')
    /\ calls (cycle_events cfg W b)
       = map (fun x => (PullRequest, x, create_pr_embed cfg x))
           (rev (new_of (seen_prs b) lp))
         ++ map (fun x => (Issue, x, create_issue_embed cfg x))
              (rev (new_of (seen_issues b) li)).
Proof.
  intros lp li b'.
  destruct (check_repository_run b)
    as (tp & ti & b2 & Hcp & Hci & Hsp & Hsi & Hf & Ht & Hrun).
  fold lp in Hcp, Hsp. fold li in Hci, Hsi.
  assert (b' = extend (save_events W b2) (set_seen_file (saved_file W b2) b2))
    as Hb' by (unfold b', step; simpl; by rewrite Hrun).
  assert (trace b' = trace b2 ++ save_events W b2) as Htr by by rewrite Hb'.
  set (t := [EvPrint (LogChecking (GITHUB_REPO cfg))] ++ _) in Ht.
  exists t, b2.
  assert (cycle_events cfg W b = t ++ save_events W b2) as Hev.
  { unfold cycle_events. fold b'. rewrite Htr, Ht, <- app_assoc.
    by rewrite since_app. }
  split; [exact Hev|]. split; [exact Ht|].
  split; [by rewrite Hev, Htr, Ht, <- app_assoc|].
  split; [by rewrite Hb'|]. split; [by rewrite Hb'|]. split; [by rewrite Hb'|].
  split; [by rewrite Hb'|]. split; [by rewrite Hb'|].
  assert (calls (cycle_events cfg W b) = calls tp ++ calls ti) as Hcalls.
  { rewrite Hev. unfold t. rewrite !calls_app. simpl.
    rewrite !calls_app, !calls_fetch_log.
    rewrite calls_save_events. simpl. by rewrite app_nil_r. }
  split; [|split; [|split; [|split; [|split]]]].
  - unfold notified. rewrite Hcalls, omap_app.
    fold (notified PullRequest tp). fold (notified Issue ti).
    rewrite (notified_of_calls _ _ _ _ _ Hcp).
    unfold notified. rewrite Hci. clear.
    induction (rev (new_of (seen_issues b) li)); simpl; [|done].
    by rewrite app_nil_r.
  - unfold notified. rewrite Hcalls, omap_app.
    fold (notified Issue ti).
    rewrite (notified_of_calls _ _ _ _ _ Hci).
    rewrite Hcp. clear.
    induction (rev (new_of (seen_prs b) lp)); simpl; done.
  - unfold t. simpl. right. by left.
  - unfold t. simpl. right. right. apply in_or_app. right. by left.
  - rewrite Hrun. by rewrite Hb'.
  - by rewrite Hcalls, Hcp, Hci.
Qed.

(** ** The partition as a function of the list *)

Lemma new_of_elem (s : gset Z) (l : list item) (x : item) :
  x ∈ new_of s l -> x ∈ l /\ id x ∉ s.
Proof.
  revert s. induction l as [|y l IH]; intros s; simpl.
  - by intros ?%elem_of_nil.
  - destruct (decide (id y ∉ s)) as [Hy|Hy].
    + intros [->|Hx]%elem_of_cons; [split; [left|done]|].
      apply IH in Hx as [? ?]. split; [by right|set_solver].
    + intros [? ?]%IH. split; [by right|done].
Qed.

Lemma count_id_cons (i : Z) (x : item) (l : list item) :
  count_id i (x :: l)
  = ((if decide (id x = i) then 1 else 0) + count_id i l)%nat.
Proof.
  unfold count_id. rewrite filter_cons. by destruct (decide (id x = i)).
Qed.

Lemma count_id_app (i : Z) (l l' : list item) :
  count_id i (l ++ l') = (count_id i l + count_id i l')%nat.
Proof. unfold count_id. by rewrite filter_app, length_app. Qed.

Lemma count_id_rev (i : Z) (l : list item) :
  count_id i (rev l) = count_id i l.
Proof.
  induction l as [|x l IH]; simpl; [done|].
  rewrite count_id_app, !count_id_cons, IH.
  change (count_id i []) with 0%nat. lia.
Qed.

Lemma count_id_new_of (i : Z) (s : gset Z) (l : list item) :
  count_id i (new_of s l)
  = if decide (i ∈ s) then 0%nat
    else if decide (i ∈ ids l) then 1%nat else 0%nat.
Proof.
  revert s. induction l as [|x l IH]; intros s; simpl.
  - destruct (decide (i ∈ s)); [done|].
    destruct (decide (i ∈ ids [])) as [Hin|]; [|done].
    rewrite ids_nil in Hin. set_solver.
  - assert (ids (x :: l) = {[id x]} ∪ ids l) as Hids by reflexivity.
    destruct (decide (id x ∉ s)) as [Hx|Hx].
    + rewrite count_id_cons, IH.
      repeat case_decide; try done; set_solver.
    + rewrite IH. apply dec_stable in Hx.
      repeat case_decide; try done; set_solver.
Qed.

Lemma new_of_covers (s : gset Z) (l : list item) (x : item) :
  x ∈ l -> id x ∉ s -> exists y, y ∈ new_of s l /\ id y = id x.
Proof.
  intros Hx Hs.
  assert (count_id (id x) (new_of s l) = 1%nat) as Hc.
  { rewrite count_id_new_of. rewrite decide_False by done.
    rewrite decide_True; [done|].
    unfold ids. apply elem_of_list_to_set, list_elem_of_fmap. eauto. }
  unfold count_id in Hc.
  destruct (filter (fun y => id y = id x) (new_of s l)) as [|y l'] eqn:Hf;
    [done|].
  assert (y ∈ filter (fun y => id y = id x) (new_of s l)) as Hy
    by (rewrite Hf; left).
  apply list_elem_of_filter in Hy as [? ?]. eauto.
Qed.

Lemma new_of_distinct (s : gset Z) (l : list item) :
  NoDup (id <$> l) -> (forall x, x ∈ l -> id x ∉ s) -> new_of s l = l.
Proof.
  revert s. induction l as [|x l IH]; intros s Hnd Hs; simpl; [done|].
  apply NoDup_cons in Hnd as [Hx Hnd].
  rewrite decide_True by (apply Hs; left).
  f_equal. apply IH; [done|].
  intros y Hy. specialize (Hs y (list_elem_of_further _ _ _ Hy)).
  assert (id y <> id x).
  { intros Heq. apply Hx. rewrite <- Heq. apply list_elem_of_fmap. eauto. }
  set_solver.
Qed.

Lemma new_of_sorted (R : relation item) (s : gset Z) (l : list item) :
  StronglySorted R l -> StronglySorted R (new_of s l).
Proof.
  intros Hl. revert s. induction Hl as [|x l Hl IH Hx]; intros s; simpl.
  - constructor.
  - destruct (decide (id x ∉ s)); [|apply IH].
    constructor; [apply IH|].
    apply Forall_forall. intros y Hy%new_of_elem.
    rewrite Forall_forall in Hx. apply Hx. tauto.
Qed.

Lemma rev_sorted (R : relation item) (l : list item) :
  StronglySorted R l -> StronglySorted (flip R) (rev l).
Proof.
  induction 1 as [|x l Hl IH Hx]; simpl; [constructor|].
  apply StronglySorted_app. split; [|split]; [|done|repeat constructor].
  intros y z Hy Hz. apply list_elem_of_singleton in Hz as ->.
  unfold flip. rewrite Forall_forall in Hx. apply Hx.
  apply list_elem_of_In, in_rev, list_elem_of_In, Hy.
Qed.

Lemma issues_only_elem (l : list item) (x : item) :
  x ∈ issues_only l <-> x ∈ l /\ pull_request x = false.
Proof. unfold issues_only. rewrite list_elem_of_filter. tauto. Qed.

Lemma issues_only_sorted (R : relation item) (l : list item) :
  StronglySorted R l -> StronglySorted R (issues_only l).
Proof.
  unfold issues_only. induction 1 as [|x l Hl IH Hx]; [constructor|].
  rewrite filter_cons. destruct (decide (pull_request x = false)); [|done].
  constructor; [done|].
  apply Forall_forall. intros y [_ Hy]%list_elem_of_filter.
  rewrite Forall_forall in Hx. by apply Hx.
Qed.

End Facts.

(** ** Commands and the cycle from a cleared state *)

Section Operations.

Variable cfg : config.
Variable W : world.

Lemma check_seen_grows (k : kind) (b : bot) :
  seen k b ⊆ seen k (step cfg W OpCheck b).
Proof.
  destruct (cycle_summary cfg W b)
    as (t & b2 & _ & _ & _ & _ & _ & _ & Hp & Hi & _).
  destruct k; simpl; [rewrite Hp|rewrite Hi]; set_solver.
Qed.

Lemma status_seen (ctx : context) (b : bot) :
  seen_prs (step cfg W (OpStatus ctx) b) = seen_prs b
  /\ seen_issues (step cfg W (OpStatus ctx) b) = seen_issues b.
Proof.
  unfold step, run_op, status_command.
  by destruct (ctx_channel_id ctx =? DISCORD_CHANNEL_ID cfg).
Qed.

Lemma reset_refused (ctx : context) (b : bot) :
  ctx_administrator ctx = false
  \/ ctx_channel_id ctx <> DISCORD_CHANNEL_ID cfg ->
  step cfg W (OpReset ctx) b = b.
Proof.
  unfold step, run_op, reset. intros [Hadm|Hch].
  - by rewrite Hadm.
  - apply Z.eqb_neq in Hch. rewrite Hch. by destruct (ctx_administrator ctx).
Qed.

Lemma reset_run (ctx : context) (b : bot) :
  ctx_administrator ctx = true ->
  ctx_channel_id ctx = DISCORD_CHANNEL_ID cfg ->
  let cleared := set_seen_issues ∅ (set_seen_prs ∅ b) in
  step cfg W (OpReset ctx) b
  = extend (save_events W cleared
            ++ [EvReply ReplyReset
                  (ctx_send W (trace b ++ save_events W cleared) ReplyReset)])
      (set_seen_file (saved_file W cleared) cleared).
Proof.
  intros Hadm Hch cleared. unfold step, run_op, reset.
  rewrite Hadm, Hch, Z.eqb_refl.
  assert (seen_clear PullRequest b = (Ok tt, set_seen_prs ∅ b)) as H1
    by reflexivity.
  assert (seen_clear Issue (set_seen_prs ∅ b) = (Ok tt, cleared)) as H2
    by reflexivity.
  rewrite (bind_run _ _ _ _ _ H1), (bind_run _ _ _ _ _ H2),
    (bind_run _ _ _ _ _ (save_seen_items_run W cleared)).
  unfold reply_to, extend, add_event; simpl. by rewrite <- app_assoc.
Qed.

Lemma save_events_cleared (b : bot) :
  seen_prs b = ∅ -> seen_issues b = ∅ ->
  save_events W b
  = match file_write W (trace b) [] [] with
    | None => [EvWrite [] [] (Ok tt)]
    | Some (e, _) => [EvWrite [] [] (Raise e); EvPrint (LogSaveError e)]
    end
  /\ saved_file W b
     = match file_write W (trace b) [] [] with
       | None => FileObject (Some (JIds [])) (Some (JIds []))
       | Some (_, leftover) => leftover
       end.
Proof.
  intros Hp Hi. unfold save_events, saved_file.
  by rewrite Hp, Hi, elements_empty.
Qed.

(** With both sets empty, a cycle notifies about everything it fetches. *)
Lemma cycle_from_empty (b : bot) :
  seen_prs b = ∅ -> seen_issues b = ∅ ->
  let prs := default [] (fetched (pulls_answer cfg W b)) in
  let issues := issues_only (default [] (fetched (issues_answer cfg W b))) in
  let sent := notified PullRequest (cycle_events cfg W b) in
  let sent' := notified Issue (cycle_events cfg W b) in
  (forall x, x ∈ prs -> exists y, y ∈ sent /\ id y = id x)
  /\ (forall x, x ∈ issues -> exists y, y ∈ sent' /\ id y = id x)
  /\ (NoDup (id <$> prs) -> sent = rev prs)
  /\ (NoDup (id <$> issues) -> sent' = rev issues).
Proof.
  intros Hp Hi prs issues sent sent'.
  destruct (cycle_summary cfg W b)
    as (t & b2 & _ & _ & _ & _ & _ & _ & _ & _ & Hnp & Hni & _).
  unfold sent, sent'. rewrite Hnp, Hni, Hp, Hi. fold prs issues.
  split; [|split; [|split]].
  - intros x Hx.
    destruct (new_of_covers ∅ prs x Hx) as (y & Hy & Hid); [set_solver|].
    exists y. split; [|done].
    apply list_elem_of_In. rewrite <- in_rev. by apply list_elem_of_In.
  - intros x Hx.
    destruct (new_of_covers ∅ issues x Hx) as (y & Hy & Hid); [set_solver|].
    exists y. split; [|done].
    apply list_elem_of_In. rewrite <- in_rev. by apply list_elem_of_In.
  - intros Hnd. rewrite new_of_distinct; [done|done|set_solver].
  - intros Hnd. rewrite new_of_distinct; [done|done|set_solver].
Qed.

End Operations.

(** ** Loading the state file *)

Lemma load_after_failure (b : bot) (e : exn) :
  fst (read_seen_file b) = Raise e ->
  load_seen_items b
  = (Ok tt,
     {| seen_prs := ∅; seen_issues := ∅; seen_file := seen_file b;
        trace := trace b ++ [EvPrint (LogLoadError e)] |}).
Proof.
  unfold load_seen_items, try_except, read_seen_file.
  unfold mbind, M_bind, gets. simpl.
  destruct (seen_file b) as [| | | |p i] eqn:Hf; simpl;
    try (intros [= <-]; by rewrite <- ?Hf); try done.
  destruct p as [[lp|]|], i as [[li|]|]; simpl;
    try (intros [= <-]; by rewrite <- ?Hf); try done.
Qed.

(** ** Counting notifications *)

Section Once.

Variable cfg : config.
Variable W : world.

Lemma block_marks (k : kind) (l : list item) (b : bot) (m : M unit) :
  m = (new ← partition_new k l; notify_new cfg W k new)
  \/ (m = mret tt /\ l = []) ->
  exists new marked,
    partition_new k l b = (Ok new, marked)
    /\ trace marked = trace b
    /\ (forall x, x ∈ l -> id x ∈ seen k marked)
    /\ m b = notify_new cfg W k new marked
    /\ seen k (exec (notify_new cfg W k new) marked) = seen k marked.
Proof.
  intros Hm.
  exists (new_of (seen k b) l), (set_seen k (ids l ∪ seen k b) b).
  split; [apply partition_new_run|].
  split; [by destruct k|]. split.
  - intros x Hx. rewrite seen_set_seen. unfold ids.
    apply elem_of_union_l, elem_of_list_to_set, list_elem_of_fmap. eauto.
  - split.
    + destruct Hm as [-> | [-> ->]].
      * by rewrite (bind_run _ _ _ _ _ (partition_new_run k l b)).
      * simpl. rewrite ids_nil, union_empty_l_L, set_seen_same. done.
    + destruct (notify_new_run cfg W k (new_of (seen k b) l)
                  (set_seen k (ids l ∪ seen k b) b)) as (t & Hrun & _).
      unfold exec. rewrite Hrun. by destruct k.
Qed.

Lemma cycle_potential (k : kind) (i : Z) (b : bot) :
  (count_id i (notified k (cycle_events cfg W b))
   + (if decide (i ∈ seen k (step cfg W OpCheck b)) then 0 else 1))%nat
  = if decide (i ∈ seen k b) then 0%nat else 1%nat.
Proof.
  destruct (cycle_summary cfg W b)
    as (t & b2 & _ & _ & _ & _ & _ & _ & Hp & Hi & Hnp & Hni & _).
  destruct k; simpl.
  - rewrite Hnp, Hp, count_id_rev, count_id_new_of.
    repeat case_decide; try done; set_solver.
  - rewrite Hni, Hi, count_id_rev, count_id_new_of.
    repeat case_decide; try done; set_solver.
Qed.

Lemma step_check_trace (b : bot) :
  trace (step cfg W OpCheck b) = trace b ++ cycle_events cfg W b.
Proof.
  by destruct (cycle_summary cfg W b) as (t & b2 & _ & _ & Ht & _).
Qed.

Lemma run_checks_potential (k : kind) (i : Z) (n : nat) (b : bot) :
  exists t,
    trace (run cfg W (repeat OpCheck n) b) = trace b ++ t
    /\ (count_id i (notified k t)
        + (if decide (i ∈ seen k (run cfg W (repeat OpCheck n) b))
           then 0 else 1))%nat
       = if decide (i ∈ seen k b) then 0%nat else 1%nat.
Proof.
  revert b. induction n as [|n IH]; intros b.
  - exists []. split; [by rewrite app_nil_r|done].
  - change (run cfg W (repeat OpCheck (S n)) b)
      with (run cfg W (repeat OpCheck n) (step cfg W OpCheck b)).
    destruct (IH (step cfg W OpCheck b)) as (t & Ht & Hpot).
    exists (cycle_events cfg W b ++ t). split.
    + by rewrite Ht, step_check_trace, app_assoc.
    + rewrite notified_app, count_id_app, <- (cycle_potential k i b).
      lia.
Qed.

Lemma notified_when_first_fetched (k : kind) (i : Z) (n : nat) (b : bot) :
  let bn := run cfg W (repeat OpCheck n) b in
  seen k b = ∅ ->
  count_id i (notified k (since (trace b) (trace bn))) = 0%nat ->
  i ∈ seen k (step cfg W OpCheck bn) ->
  count_id i (notified k (cycle_events cfg W bn)) = 1%nat.
Proof.
  intros bn Hempty Hnone Hin.
  destruct (run_checks_potential k i n b) as (t & Ht & Hpot).
  fold bn in Ht, Hpot. rewrite Ht, since_app in Hnone.
  rewrite Hnone, Hempty in Hpot.
  rewrite (decide_False (P := i ∈ ∅)) in Hpot by set_solver.
  pose proof (cycle_potential k i bn) as Hcycle.
  rewrite (decide_True _ _ Hin) in Hcycle.
  repeat case_decide; lia.
Qed.

End Once.

(** ** The exact events of a cycle *)

Section Exact.

Variable cfg : config.
Variable W : world.

Lemma notify_block_run (k : kind) (x : item) (b : bot) :
  (send_discord_message cfg W k x (create_embed cfg k x);;
   print (log_new k x);;
   sleep 1) b
  = (Ok tt, extend (notify_block cfg W (trace b) k x) b).
Proof.
  unfold send_discord_message, emit, modify, try_except, bot_get_channel.
  unfold notify_block, mbind, M_bind. simpl.
  destruct (get_channel W (trace b ++ [EvNotify k x (create_embed cfg k x)])
              (DISCORD_CHANNEL_ID cfg)) eqn:Hch.
  - unfold send. simpl. rewrite <- !app_assoc. simpl.
    destruct (channel_send W _ (create_embed cfg k x)) as [[]|err];
      unfold print, sleep, emit, modify, extend, add_event; simpl;
      by rewrite <- !app_assoc.
  - unfold print, sleep, emit, modify, extend, add_event; simpl.
    by rewrite <- !app_assoc.
Qed.

Lemma notify_loop_exact (k : kind) (l : list item) (b : bot) :
  for_each l (fun x =>
    send_discord_message cfg W k x (create_embed cfg k x);;
    print (log_new k x);;
    sleep 1) b
  = (Ok tt, extend (notify_blocks cfg W (trace b) k l) b).
Proof.
  revert b. induction l as [|x l IH]; intros b; simpl.
  - by rewrite extend_nil.
  - rewrite (bind_run _ _ _ _ _ (notify_block_run k x b)).
    by rewrite IH, extend_extend.
Qed.

Lemma notify_new_exact (k : kind) (new : list item) (b : bot) :
  notify_new cfg W k new b
  = (Ok tt, extend (notify_blocks cfg W (trace b) k (rev new)) b).
Proof. apply notify_loop_exact. Qed.

(** The events of the delivery pass of a half cycle: none when the fetch
    gave nothing. *)
Lemma half_cycle_exact (k : kind) (o : option (list item)) (l : list item)
    (b : bot) :
  (l = [] \/ truthy_list o = true) ->
  (if truthy_list o
   then new ← partition_new k l; notify_new cfg W k new
   else mret tt) b
  = (Ok tt,
     extend (notify_blocks cfg W (trace b) k (rev (new_of (seen k b) l)))
       (set_seen k (ids l ∪ seen k b) b)).
Proof.
  intros Hl. destruct (truthy_list o).
  - rewrite (bind_run _ _ _ _ _ (partition_new_run k l b)).
    rewrite notify_new_exact. by destruct k.
  - destruct Hl as [-> | ?]; [|done]. simpl.
    by rewrite ids_nil, union_empty_l_L, set_seen_same, extend_nil.
Qed.

Lemma check_pull_requests_exact (b : bot) :
  let r := session_get W (trace b) (pulls_url cfg) (request_headers cfg) in
  let l := default [] (fetched r) in
  let asked := EvGet (pulls_url cfg) (request_headers cfg) r :: fetch_log r in
  check_pull_requests cfg W b
  = (Ok tt,
     extend (asked
             ++ notify_blocks cfg W (trace b ++ asked) PullRequest
                  (rev (new_of (seen_prs b) l)))
       (set_seen_prs (ids l ∪ seen_prs b) b)).
Proof.
  intros r l asked. unfold check_pull_requests.
  rewrite (bind_run _ _ _ _ _ (fetch_github_data_run cfg W (pulls_url cfg) b)).
  fold r. fold asked.
  rewrite (half_cycle_exact PullRequest (fetched r) l).
  - unfold extend; simpl. by rewrite <- app_assoc.
  - unfold l. destruct (fetched r) as [[|x l']|]; simpl; auto.
Qed.

Lemma check_issues_exact (b : bot) :
  let r := session_get W (trace b) (issues_url cfg) (request_headers cfg) in
  let l := issues_only (default [] (fetched r)) in
  let asked := EvGet (issues_url cfg) (request_headers cfg) r :: fetch_log r in
  check_issues cfg W b
  = (Ok tt,
     extend (asked
             ++ notify_blocks cfg W (trace b ++ asked) Issue
                  (rev (new_of (seen_issues b) l)))
       (set_seen_issues (ids l ∪ seen_issues b) b)).
Proof.
  intros r l asked. unfold check_issues.
  rewrite (bind_run _ _ _ _ _ (fetch_github_data_run cfg W (issues_url cfg) b)).
  fold r. fold asked.
  change (filter (fun issue => pull_request issue = false)
            (default [] (fetched r))) with l.
  rewrite (half_cycle_exact Issue (fetched r) l).
  - unfold extend; simpl. by rewrite <- app_assoc.
  - unfold l. destruct (fetched r) as [[|x l']|]; simpl; auto.
Qed.

(** The events of a cycle, in full. *)
Lemma cycle_events_exact (b : bot) :
  let rp := pulls_answer cfg W b in
  let lp := default [] (fetched rp) in
  let ri := issues_answer cfg W b in
  let li := issues_only (default [] (fetched ri)) in
  exists trp tri b2,
    cycle_events cfg W b
    = [EvPrint (LogChecking (GITHUB_REPO cfg))]
      ++ (EvGet (pulls_url cfg) (request_headers cfg) rp :: fetch_log rp)
      ++ notify_blocks cfg W trp PullRequest (rev (new_of (seen_prs b) lp))
      ++ (EvGet (issues_url cfg) (request_headers cfg) ri :: fetch_log ri)
      ++ notify_blocks cfg W tri Issue (rev (new_of (seen_issues b) li))
      ++ save_events W b2
    /\ seen_prs b2 = seen_prs (step cfg W OpCheck b)
    /\ seen_issues b2 = seen_issues (step cfg W OpCheck b)
    /\ seen_file (step cfg W OpCheck b) = saved_file W b2
    /\ trace (step cfg W OpCheck b) = trace b2 ++ save_events W b2.
Proof.
  intros rp lp ri li.
  set (b0 := extend [EvPrint (LogChecking (GITHUB_REPO cfg))] b).
  pose proof (check_pull_requests_exact b0) as Hp. simpl in Hp.
  change (session_get W (trace b ++ [EvPrint (LogChecking (GITHUB_REPO cfg))])
            (pulls_url cfg) (request_headers cfg)) with rp in Hp.
  fold lp in Hp.
  set (b1 := extend _ (set_seen_prs (ids lp ∪ seen_prs b) b0)) in Hp.
  pose proof (check_issues_exact b1) as Hi. simpl in Hi.
  assert (session_get W (trace b1) (issues_url cfg) (request_headers cfg) = ri)
    as Hri.
  { unfold ri, issues_answer, exec. fold b0. by rewrite Hp. }
  change (session_get W _ (issues_url cfg) (request_headers cfg))
    with (session_get W (trace b1) (issues_url cfg) (request_headers cfg)) in Hi.
  rewrite Hri in Hi. fold li in Hi.
  set (b2 := extend _ (set_seen_issues (ids li ∪ seen_issues b) b1)) in Hi.
  assert (check_repository cfg W b
          = (Ok tt, extend (save_events W b2)
                      (set_seen_file (saved_file W b2) b2))) as Hrun.
  { unfold check_repository.
    assert (print (LogChecking (GITHUB_REPO cfg)) b = (Ok tt, b0)) as H0
      by reflexivity.
    rewrite (bind_run _ _ _ _ _ H0), (bind_run _ _ _ _ _ Hp),
      (bind_run _ _ _ _ _ Hi).
    apply save_seen_items_run. }
  eexists _, _, b2.
  unfold cycle_events, step, run_op. rewrite Hrun. simpl.
  split; [|done].
  unfold b2, b1, b0, extend; simpl.
  rewrite <- !app_assoc. simpl. rewrite <- !app_assoc.
  rewrite since_app. simpl. reflexivity.
Qed.

End Exact.

(** ** What the delivery loop leaves in the trace *)

Section Blocks.

Variable cfg : config.
Variable W : world.

Ltac block_cases tr k x :=
  unfold notify_block; simpl;
  destruct (get_channel W (tr ++ [EvNotify k x (create_embed cfg k x)])
              (DISCORD_CHANNEL_ID cfg)); simpl;
  [destruct (channel_send W _ (create_embed cfg k x)) as [[]|?]; simpl|].

Lemma block_sleeps tr k x : sleeps (notify_block cfg W tr k x) = [1].
Proof. block_cases tr k x; done. Qed.

Lemma block_calls tr k x :
  calls (notify_block cfg W tr k x) = [(k, x, create_embed cfg k x)].
Proof. block_cases tr k x; done. Qed.

Lemma block_requests tr k x : requests (notify_block cfg W tr k x) = [].
Proof. block_cases tr k x; done. Qed.

Lemma block_writes tr k x : writes (notify_block cfg W tr k x) = [].
Proof. block_cases tr k x; done. Qed.

Lemma block_replies tr k x : replies (notify_block cfg W tr k x) = [].
Proof. block_cases tr k x; done. Qed.

Lemma block_sends tr k x :
  sends (notify_block cfg W tr k x) = []
  \/ exists r, sends (notify_block cfg W tr k x) = [(create_embed cfg k x, r)].
Proof. block_cases tr k x; eauto. Qed.

Lemma block_delivered tr k x :
  delivered (notify_block cfg W tr k x) = []
  \/ delivered (notify_block cfg W tr k x) = [create_embed cfg k x].
Proof. block_cases tr k x; eauto. Qed.

Lemma sleeps_app (t t' : list event) : sleeps (t ++ t') = sleeps t ++ sleeps t'.
Proof. apply omap_app. Qed.

Lemma requests_app (t t' : list event) :
  requests (t ++ t') = requests t ++ requests t'.
Proof. apply omap_app. Qed.

Lemma writes_app (t t' : list event) : writes (t ++ t') = writes t ++ writes t'.
Proof. apply omap_app. Qed.

Lemma replies_app (t t' : list event) :
  replies (t ++ t') = replies t ++ replies t'.
Proof. apply omap_app. Qed.

Lemma sends_app (t t' : list event) : sends (t ++ t') = sends t ++ sends t'.
Proof. apply omap_app. Qed.

Lemma delivered_app (t t' : list event) :
  delivered (t ++ t') = delivered t ++ delivered t'.
Proof. apply omap_app. Qed.

Lemma printed_app (t t' : list event) :
  printed (t ++ t') = printed t ++ printed t'.
Proof. apply omap_app. Qed.

Lemma blocks_sleeps tr k l :
  sleeps (notify_blocks cfg W tr k l) = map (fun _ => 1) l.
Proof.
  revert tr. induction l as [|x l IH]; intros tr; [done|].
  cbn [notify_blocks map flat_map].
  by rewrite sleeps_app, IH, block_sleeps.
Qed.

Lemma blocks_calls tr k l :
  calls (notify_blocks cfg W tr k l)
  = map (fun x => (k, x, create_embed cfg k x)) l.
Proof.
  revert tr. induction l as [|x l IH]; intros tr; [done|].
  cbn [notify_blocks map flat_map].
  by rewrite calls_app, IH, block_calls.
Qed.

Lemma blocks_requests tr k l : requests (notify_blocks cfg W tr k l) = [].
Proof.
  revert tr. induction l as [|x l IH]; intros tr; [done|].
  cbn [notify_blocks map flat_map].
  by rewrite requests_app, IH, block_requests.
Qed.

Lemma blocks_writes tr k l : writes (notify_blocks cfg W tr k l) = [].
Proof.
  revert tr. induction l as [|x l IH]; intros tr; [done|].
  cbn [notify_blocks map flat_map].
  by rewrite writes_app, IH, block_writes.
Qed.

Lemma blocks_replies tr k l : replies (notify_blocks cfg W tr k l) = [].
Proof.
  revert tr. induction l as [|x l IH]; intros tr; [done|].
  cbn [notify_blocks map flat_map].
  by rewrite replies_app, IH, block_replies.
Qed.

Lemma blocks_sends_sublist tr k l :
  (sends (notify_blocks cfg W tr k l)).*1 `sublist_of` map (create_embed cfg k) l.
Proof.
  revert tr. induction l as [|x l IH]; intros tr; [done|].
  cbn [notify_blocks map flat_map].
  rewrite sends_app, fmap_app.
  destruct (block_sends tr k x) as [Hs|[r Hs]]; rewrite Hs; simpl.
  - by apply sublist_cons.
  - by apply sublist_skip.
Qed.

Lemma blocks_delivered_sublist tr k l :
  delivered (notify_blocks cfg W tr k l) `sublist_of` map (create_embed cfg k) l.
Proof.
  revert tr. induction l as [|x l IH]; intros tr; [done|].
  cbn [notify_blocks map flat_map].
  rewrite delivered_app.
  destruct (block_delivered tr k x) as [Hs|Hs]; rewrite Hs; simpl.
  - by apply sublist_cons.
  - by apply sublist_skip.
Qed.

Lemma blocks_delivered_all tr k l :
  (forall t, get_channel W t (DISCORD_CHANNEL_ID cfg) = true) ->
  (forall t e, channel_send W t e = Ok tt) ->
  delivered (notify_blocks cfg W tr k l) = map (create_embed cfg k) l.
Proof.
  intros Hch Hsend. revert tr.
  induction l as [|x l IH]; intros tr; [done|].
  cbn [notify_blocks map flat_map].
  rewrite delivered_app, IH.
  unfold notify_block. simpl. by rewrite Hch, Hsend.
Qed.

Lemma blocks_sends_none tr k l :
  (forall t, get_channel W t (DISCORD_CHANNEL_ID cfg) = false) ->
  sends (notify_blocks cfg W tr k l) = []
  /\ printed (notify_blocks cfg W tr k l)
     = flat_map (fun x => [LogChannelNotFound (DISCORD_CHANNEL_ID cfg);
                           log_new k x]) l.
Proof.
  intros Hch. revert tr.
  induction l as [|x l IH]; intros tr; [done|].
  cbn [notify_blocks map flat_map].
  destruct (IH (tr ++ notify_block cfg W tr k x)) as [IH1 IH2].
  rewrite sends_app, printed_app, IH1, IH2.
  unfold notify_block. simpl. by rewrite Hch.
Qed.

Lemma fetch_log_quiet (r : result response) :
  sleeps (fetch_log r) = [] /\ requests (fetch_log r) = []
  /\ writes (fetch_log r) = [] /\ replies (fetch_log r) = []
  /\ sends (fetch_log r) = [] /\ delivered (fetch_log r) = [].
Proof.
  destruct r as [resp|e]; simpl; [|done].
  destruct (status resp =? 200); [by destruct (json resp)|].
  by destruct (status resp =? 403).
Qed.

Lemma save_events_quiet (b : bot) :
  sleeps (save_events W b) = [] /\ requests (save_events W b) = []
  /\ replies (save_events W b) = []
  /\ sends (save_events W b) = [] /\ delivered (save_events W b) = []
  /\ writes (save_events W b)
     = [(elements (seen_prs b), elements (seen_issues b))].
Proof.
  unfold save_events.
  by destruct (file_write W (trace b) (elements (seen_prs b))
                 (elements (seen_issues b))) as [[e leftover]|].
Qed.

End Blocks.

(** ** More on the partition *)

Lemma ids_rev (l : list item) : ids (rev l) = ids l.
Proof.
  unfold ids. apply set_eq. intros i.
  rewrite !elem_of_list_to_set, !list_elem_of_fmap.
  split; intros (x & -> & Hx); exists x; (split; [done|]);
    apply list_elem_of_In; apply list_elem_of_In in Hx;
    [by apply in_rev|by apply in_rev in Hx].
Qed.

Lemma ids_new_of (s : gset Z) (l : list item) : ids (new_of s l) = ids l ∖ s.
Proof.
  revert s. induction l as [|x l IH]; intros s; simpl.
  - rewrite ids_nil. set_solver.
  - change (ids (x :: l)) with ({[id x]} ∪ ids l).
    destruct (decide (id x ∉ s)) as [Hx|Hx].
    + change (ids (x :: new_of ({[id x]} ∪ s) l))
        with ({[id x]} ∪ ids (new_of ({[id x]} ∪ s) l)).
      rewrite IH. generalize (ids l). intros X.
      apply set_eq. intros i. destruct (decide (i = id x)); set_solver.
    + apply dec_stable in Hx. rewrite IH. generalize (ids l). intros X.
      apply set_eq. intros i. destruct (decide (i = id x)); set_solver.
Qed.

Lemma new_of_nodup (s : gset Z) (l : list item) : NoDup (id <$> new_of s l).
Proof.
  revert s. induction l as [|x l IH]; intros s; simpl; [constructor|].
  destruct (decide (id x ∉ s)) as [Hx|Hx]; [|apply IH].
  rewrite fmap_cons. constructor; [|apply IH].
  intros (y & Hid & Hy)%list_elem_of_fmap.
  apply new_of_elem in Hy as [_ Hy]. rewrite Hid in Hy. set_solver.
Qed.

Lemma new_of_length (s : gset Z) (l : list item) :
  (length (new_of s l) <= length l)%nat.
Proof.
  revert s. induction l as [|x l IH]; intros s; simpl; [done|].
  destruct (decide (id x ∉ s)); simpl; [specialize (IH ({[id x]} ∪ s))
                                       |specialize (IH s)]; lia.
Qed.

Lemma new_of_known (s : gset Z) (l : list item) : ids l ⊆ s -> new_of s l = [].
Proof.
  induction l as [|x l IH]; intros Hs; simpl; [done|].
  assert (ids (x :: l) = {[id x]} ∪ ids l) as Hcons by done.
  rewrite Hcons in Hs.
  rewrite decide_False by set_solver. apply IH. set_solver.
Qed.

(** ** The cycle, event by event *)

Section Cycle.

Variable cfg : config.
Variable W : world.

(** The projections of the events of a cycle. *)
Lemma cycle_projections (b : bot) :
  let lp := default [] (fetched (pulls_answer cfg W b)) in
  let li := issues_only (default [] (fetched (issues_answer cfg W b))) in
  let new_prs := rev (new_of (seen_prs b) lp) in
  let new_issues := rev (new_of (seen_issues b) li) in
  let b' := step cfg W OpCheck b in
  let ev := cycle_events cfg W b in
  sleeps ev = map (fun _ => 1) new_prs ++ map (fun _ => 1) new_issues
  /\ requests ev = [(pulls_url cfg, request_headers cfg);
                    (issues_url cfg, request_headers cfg)]
  /\ writes ev = [(elements (seen_prs b'), elements (seen_issues b'))]
  /\ replies ev = []
  /\ exists trp tri,
       sends ev = sends (notify_blocks cfg W trp PullRequest new_prs)
                  ++ sends (notify_blocks cfg W tri Issue new_issues)
       /\ delivered ev
          = delivered (notify_blocks cfg W trp PullRequest new_prs)
            ++ delivered (notify_blocks cfg W tri Issue new_issues).
Proof.
  intros lp li new_prs new_issues b' ev.
  destruct (cycle_events_exact cfg W b)
    as (trp & tri & b2 & Hev & Hp2 & Hi2 & _ & _).
  fold lp li new_prs new_issues b' ev in Hev, Hp2, Hi2.
  destruct (fetch_log_quiet (pulls_answer cfg W b))
    as (Hp_s & Hp_r & Hp_w & Hp_y & Hp_n & Hp_d).
  destruct (fetch_log_quiet (issues_answer cfg W b))
    as (Hi_s & Hi_r & Hi_w & Hi_y & Hi_n & Hi_d).
  destruct (save_events_quiet W b2) as (Hs_s & Hs_r & Hs_y & Hs_n & Hs_d & Hs_w).
  rewrite Hp2, Hi2 in Hs_w.
  rewrite Hev.
  change (EvGet (pulls_url cfg) (request_headers cfg) (pulls_answer cfg W b)
          :: fetch_log (pulls_answer cfg W b))
    with ([EvGet (pulls_url cfg) (request_headers cfg) (pulls_answer cfg W b)]
          ++ fetch_log (pulls_answer cfg W b)).
  change (EvGet (issues_url cfg) (request_headers cfg) (issues_answer cfg W b)
          :: fetch_log (issues_answer cfg W b))
    with ([EvGet (issues_url cfg) (request_headers cfg) (issues_answer cfg W b)]
          ++ fetch_log (issues_answer cfg W b)).
  split; [|split; [|split; [|split]]].
  - rewrite !sleeps_app, !blocks_sleeps, Hp_s, Hi_s, Hs_s.
    cbn [sleeps omap list_omap app]. by rewrite app_nil_r.
  - rewrite !requests_app, !blocks_requests, Hp_r, Hi_r, Hs_r. reflexivity.
  - rewrite !writes_app, !blocks_writes, Hp_w, Hi_w, Hs_w. reflexivity.
  - rewrite !replies_app, !blocks_replies, Hp_y, Hi_y, Hs_y. reflexivity.
  - exists trp, tri. split.
    + rewrite !sends_app, Hp_n, Hi_n, Hs_n.
      cbn [sends omap list_omap app]. by rewrite app_nil_r.
    + rewrite !delivered_app, Hp_d, Hi_d, Hs_d.
      cbn [delivered omap list_omap app]. by rewrite app_nil_r.
Qed.

Lemma blocks_delivered_none tr k l :
  (forall t, get_channel W t (DISCORD_CHANNEL_ID cfg) = false) ->
  delivered (notify_blocks cfg W tr k l) = [].
Proof.
  intros Hch. revert tr. induction l as [|x l IH]; intros tr; [done|].
  cbn [notify_blocks]. rewrite delivered_app, IH.
  unfold notify_block. simpl. by rewrite Hch.
Qed.

Lemma cycle_calls_embeds (b : bot) :
  let lp := default [] (fetched (pulls_answer cfg W b)) in
  let li := issues_only (default [] (fetched (issues_answer cfg W b))) in
  (calls (cycle_events cfg W b)).*2
  = map (create_embed cfg PullRequest) (rev (new_of (seen_prs b) lp))
    ++ map (create_embed cfg Issue) (rev (new_of (seen_issues b) li)).
Proof.
  intros lp li.
  destruct (cycle_summary cfg W b)
    as (t & b2 & _ & _ & _ & _ & _ & _ & _ & _ & _ & _ & _ & _ & _ & Hc).
  fold lp li in Hc. rewrite Hc, fmap_app. clear Hc. f_equal.
  - induction (rev (new_of (seen_prs b) lp)) as [|x l IH]; [done|].
    simpl. by rewrite <- IH.
  - induction (rev (new_of (seen_issues b) li)) as [|x l IH]; [done|].
    simpl. by rewrite <- IH.
Qed.

End Cycle.

Lemma rev_is_reverse {A} (l : list A) : rev l = reverse l.
Proof. unfold reverse. apply rev_alt. Qed.

(** ** The rhythm of a cycle and its last events *)

Section Rhythm.

Variable cfg : config.
Variable W : world.

Lemma beats_app (t t' : list event) : beats (t ++ t') = beats t ++ beats t'.
Proof. apply omap_app. Qed.

Lemma block_rhythm tr k x :
  exists reached, beats (notify_block cfg W tr k x) = block_beats reached.
Proof.
  unfold notify_block; simpl.
  destruct (get_channel W (tr ++ [EvNotify k x (create_embed cfg k x)])
              (DISCORD_CHANNEL_ID cfg)); simpl;
    [destruct (channel_send W _ (create_embed cfg k x)) as [[]|?]; simpl|];
    [exists true|exists true|exists false]; done.
Qed.

Lemma blocks_rhythm tr k l :
  exists reached,
    length reached = length l
    /\ beats (notify_blocks cfg W tr k l) = flat_map block_beats reached.
Proof.
  revert tr. induction l as [|x l IH]; intros tr.
  - by exists [].
  - cbn [notify_blocks].
    destruct (block_rhythm tr k x) as (r & Hr).
    destruct (IH (tr ++ notify_block cfg W tr k x)) as (rs & Hlen & Hrs).
    exists (r :: rs). split; [simpl; by rewrite Hlen|].
    rewrite beats_app, Hr, Hrs. done.
Qed.

Lemma blocks_sends_all tr k l :
  (forall t, get_channel W t (DISCORD_CHANNEL_ID cfg) = true) ->
  (sends (notify_blocks cfg W tr k l)).*1 = map (create_embed cfg k) l.
Proof.
  intros Hch. revert tr. induction l as [|x l IH]; intros tr; [done|].
  cbn [notify_blocks map]. rewrite sends_app, fmap_app, IH.
  unfold notify_block. simpl. rewrite Hch.
  by destruct (channel_send W _ (create_embed cfg k x)) as [[]|?].
Qed.

Lemma blocks_delivered_sends tr k l :
  delivered (notify_blocks cfg W tr k l)
  `sublist_of` (sends (notify_blocks cfg W tr k l)).*1.
Proof.
  revert tr. induction l as [|x l IH]; intros tr; [done|].
  cbn [notify_blocks]. rewrite delivered_app, sends_app, fmap_app.
  apply sublist_app; [|apply IH].
  unfold notify_block. simpl.
  destruct (get_channel W (tr ++ [EvNotify k x (create_embed cfg k x)])
              (DISCORD_CHANNEL_ID cfg)); simpl; [|done].
  destruct (channel_send W _ (create_embed cfg k x)) as [[]|?]; simpl.
  - done.
  - by apply sublist_cons.
Qed.

Lemma fetch_log_beats (r : result response) : beats (fetch_log r) = [].
Proof.
  destruct r as [resp|e]; simpl; [|done].
  destruct (status resp =? 200); [by destruct (json resp)|].
  by destruct (status resp =? 403).
Qed.

Lemma save_events_beats (b : bot) : beats (save_events W b) = [].
Proof.
  unfold save_events.
  by destruct (file_write W (trace b) (elements (seen_prs b))
                 (elements (seen_issues b))) as [[e leftover]|].
Qed.

(** The beats of a cycle: those of its two delivery loops. *)
Lemma cycle_beats (b : bot) :
  exists reached,
    length reached = length (calls (cycle_events cfg W b))
    /\ beats (cycle_events cfg W b) = flat_map block_beats reached.
Proof.
  destruct (cycle_events_exact cfg W b) as (trp & tri & b2 & Hev & _).
  destruct (cycle_summary cfg W b)
    as (t & b2' & _ & _ & _ & _ & _ & _ & _ & _ & _ & _ & _ & _ & _ & Hc).
  destruct (blocks_rhythm trp PullRequest
              (rev (new_of (seen_prs b)
                      (default [] (fetched (pulls_answer cfg W b))))))
    as (rp & Hlp & Hrp).
  destruct (blocks_rhythm tri Issue
              (rev (new_of (seen_issues b)
                      (issues_only
                         (default [] (fetched (issues_answer cfg W b)))))))
    as (ri & Hli & Hri).
  exists (rp ++ ri). split.
  - rewrite Hc, !length_app, !length_map. by rewrite Hlp, Hli.
  - rewrite Hev.
    change (EvGet (pulls_url cfg) (request_headers cfg) (pulls_answer cfg W b)
            :: fetch_log (pulls_answer cfg W b))
      with ([EvGet (pulls_url cfg) (request_headers cfg)
               (pulls_answer cfg W b)]
            ++ fetch_log (pulls_answer cfg W b)).
    change (EvGet (issues_url cfg) (request_headers cfg)
              (issues_answer cfg W b)
            :: fetch_log (issues_answer cfg W b))
      with ([EvGet (issues_url cfg) (request_headers cfg)
               (issues_answer cfg W b)]
            ++ fetch_log (issues_answer cfg W b)).
    rewrite !beats_app, Hrp, Hri, !fetch_log_beats, save_events_beats.
    cbn [beats omap list_omap app]. by rewrite flat_map_app, app_nil_r.
Qed.

(** A cycle ends with its write: everything before it holds the two
    requests and no write, and what follows the write is the error line
    when the write raises. *)
Lemma cycle_save_last (b : bot) :
  let b' := step cfg W OpCheck b in
  let ev := cycle_events cfg W b in
  let P := elements (seen_prs b') in
  let I := elements (seen_issues b') in
  exists t,
    requests t = [(pulls_url cfg, request_headers cfg);
                  (issues_url cfg, request_headers cfg)]
    /\ writes t = []
    /\ calls t = calls ev
    /\ (file_write W (trace b ++ t) P I = None ->
        ev = t ++ [EvWrite P I (Ok tt)]
        /\ seen_file b' = FileObject (Some (JIds P)) (Some (JIds I)))
    /\ (forall e leftover,
          file_write W (trace b ++ t) P I = Some (e, leftover) ->
          ev = t ++ [EvWrite P I (Raise e); EvPrint (LogSaveError e)]
          /\ seen_file b' = leftover).
Proof.
  intros b' ev P I.
  destruct (cycle_summary cfg W b)
    as (t & b2 & Hev & Ht & _ & Hp2 & Hi2 & Hfile & _).
  fold b' in Hp2, Hi2, Hfile. fold ev in Hev.
  destruct (cycle_projections cfg W b) as (_ & Hr & Hw & _).
  fold b' ev in Hr, Hw. fold P I in Hw.
  destruct (save_events_quiet W b2) as (_ & Hsr & _ & _ & _ & Hsw).
  rewrite Hp2, Hi2 in Hsw. fold P I in Hsw.
  exists t. split; [|split; [|split; [|split]]].
  - rewrite Hev, requests_app, Hsr, app_nil_r in Hr. done.
  - rewrite Hev, writes_app, Hsw in Hw.
    destruct (writes t) as [|w ws]; [done|].
    apply (f_equal length) in Hw. rewrite length_app in Hw. simpl in Hw. lia.
  - by rewrite Hev, calls_app, calls_save_events, app_nil_r.
  - intros Hnone. rewrite Hev, Hfile. unfold save_events, saved_file.
    rewrite Hp2, Hi2, Ht. fold P I. by rewrite Hnone.
  - intros e leftover Hsome. rewrite Hev, Hfile. unfold save_events, saved_file.
    rewrite Hp2, Hi2, Ht. fold P I. by rewrite Hsome.
Qed.

(** The items whose embeds a delivery loop hands to [channel.send], and
    those among them the channel accepts. *)
Lemma blocks_sent_items tr k l :
  exists sent got,
    got `sublist_of` sent /\ sent `sublist_of` l
    /\ (sends (notify_blocks cfg W tr k l)).*1 = map (create_embed cfg k) sent
    /\ delivered (notify_blocks cfg W tr k l) = map (create_embed cfg k) got
    /\ ((forall t, get_channel W t (DISCORD_CHANNEL_ID cfg) = true) ->
        sent = l)
    /\ ((forall t, get_channel W t (DISCORD_CHANNEL_ID cfg) = true) ->
        (forall t e, channel_send W t e = Ok tt) -> got = l).
Proof.
  revert tr. induction l as [|x l IH]; intros tr.
  - exists [], []. done.
  - cbn [notify_blocks].
    destruct (IH (tr ++ notify_block cfg W tr k x))
      as (sent & got & Hgs & Hsl & Hsends & Hdel & Hfound & Hok).
    rewrite sends_app, delivered_app, fmap_app, Hsends, Hdel.
    unfold notify_block. simpl.
    destruct (get_channel W (tr ++ [EvNotify k x (create_embed cfg k x)])
                (DISCORD_CHANNEL_ID cfg)) eqn:Hch; simpl.
    + destruct (channel_send W _ (create_embed cfg k x)) as [[]|err] eqn:Hs;
        simpl.
      * exists (x :: sent), (x :: got).
        split; [by apply sublist_skip|]. split; [by apply sublist_skip|].
        split; [done|]. split; [done|]. split.
        -- intros H. by rewrite (Hfound H).
        -- intros H H'. by rewrite (Hok H H').
      * exists (x :: sent), got.
        split; [by apply sublist_cons|]. split; [by apply sublist_skip|].
        split; [done|]. split; [done|]. split.
        -- intros H. by rewrite (Hfound H).
        -- intros H H'. rewrite H' in Hs. done.
    + exists sent, got.
      split; [done|]. split; [by apply sublist_cons|].
      split; [done|]. split; [done|]. split.
      * intros H. rewrite H in Hch. done.
      * intros H. rewrite H in Hch. done.
Qed.

(** The same for a whole cycle. *)
Lemma cycle_sent_items (b : bot) :
  let ev := cycle_events cfg W b in
  exists sent_prs got_prs sent_issues got_issues,
    (sends ev).*1 = map (create_pr_embed cfg) sent_prs
                    ++ map (create_issue_embed cfg) sent_issues
    /\ delivered ev = map (create_pr_embed cfg) got_prs
                      ++ map (create_issue_embed cfg) got_issues
    /\ got_prs `sublist_of` sent_prs
    /\ sent_prs `sublist_of` notified PullRequest ev
    /\ got_issues `sublist_of` sent_issues
    /\ sent_issues `sublist_of` notified Issue ev
    /\ ((forall t, get_channel W t (DISCORD_CHANNEL_ID cfg) = true) ->
        sent_prs = notified PullRequest ev
        /\ sent_issues = notified Issue ev)
    /\ ((forall t, get_channel W t (DISCORD_CHANNEL_ID cfg) = true) ->
        (forall t e, channel_send W t e = Ok tt) ->
        got_prs = notified PullRequest ev /\ got_issues = notified Issue ev).
Proof.
  intros ev.
  destruct (cycle_projections cfg W b)
    as (_ & _ & _ & _ & trp & tri & Hsends & Hdel).
  destruct (cycle_summary cfg W b)
    as (t & b2 & _ & _ & _ & _ & _ & _ & _ & _ & Hnp & Hni & _).
  fold ev in Hsends, Hdel, Hnp, Hni.
  destruct (blocks_sent_items trp PullRequest (notified PullRequest ev))
    as (sp & gp & Hgp & Hsp & Hp1 & Hp2 & Hp3 & Hp4).
  destruct (blocks_sent_items tri Issue (notified Issue ev))
    as (si & gi & Hgi & Hsi & Hi1 & Hi2 & Hi3 & Hi4).
  rewrite Hnp in Hp1, Hp2. rewrite Hni in Hi1, Hi2.
  exists sp, gp, si, gi.
  split; [by rewrite Hsends, fmap_app, Hp1, Hi1|].
  split; [by rewrite Hdel, Hp2, Hi2|].
  split; [done|]. split; [done|]. split; [done|]. split; [done|].
  split.
  - intros H. by rewrite (Hp3 H), (Hi3 H).
  - intros H H'. by rewrite (Hp4 H H'), (Hi4 H H').
Qed.

End Rhythm.

Lemma sublist_sorted {A} (R : relation A) (l l' : list A) :
  l' `sublist_of` l -> StronglySorted R l -> StronglySorted R l'.
Proof.
  induction 1 as [|x l1 l2 Hsub IH|x l1 l2 Hsub IH]; intros Hs.
  - done.
  - apply StronglySorted_inv in Hs as [Hs Hx].
    constructor; [by apply IH|].
    apply Forall_forall. intros y Hy. rewrite Forall_forall in Hx.
    apply Hx. by apply (sublist_subseteq _ _ Hsub).
  - apply StronglySorted_inv in Hs as [Hs _]. by apply IH.
Qed.

Lemma map_sorted {A B} (R : relation B) (f : A -> B) (l : list A) :
  StronglySorted (fun x y => R (f x) (f y)) l -> StronglySorted R (map f l).
Proof.
  induction 1 as [|x l Hl IH Hx]; simpl; [constructor|].
  constructor; [done|].
  apply Forall_forall. intros y (z & -> & Hz)%list_elem_of_fmap.
  rewrite Forall_forall in Hx. by apply Hx.
Qed.

(** ** Running the model *)

(** The first cycle on an empty state notifies about the pull request and
    then about the issue, although every send fails; the second cycle
    notifies about nothing. *)
Example first_cycle_notifies :
  map (fun c : kind * item * embed => (c.1.1, id c.1.2))
    (calls (cycle_events Examples.cfg Examples.small_repo Examples.fresh))
  = [(PullRequest, 12); (Issue, 11)].
Proof. vm_compute. reflexivity. Qed.

Example first_cycle_saves :
  seen_file (step Examples.cfg Examples.small_repo OpCheck Examples.fresh)
  = FileObject (Some (JIds [12])) (Some (JIds [11])).
Proof. vm_compute. reflexivity. Qed.

Example second_cycle_silent :
  calls (cycle_events Examples.cfg Examples.small_repo
           (step Examples.cfg Examples.small_repo OpCheck Examples.fresh))
  = [].
Proof. vm_compute. reflexivity. Qed.

Example footer_of_pull_request :
  footer (create_pr_embed Examples.cfg Examples.t2) = lit "PR #12".
Proof. vm_compute. reflexivity. Qed.

Example timestamp_of_pull_request :
  timestamp (create_pr_embed Examples.cfg Examples.t2)
  = lit "2024-05-02T10:00:00+00:00".
Proof. vm_compute. reflexivity. Qed.

(** * The claims *)

(** ** Deduplication *)

(** C1. In each half of a cycle the partition pass runs to its end before
    the delivery pass starts: it attempts no delivery, it leaves the
    identifier of every fetched item (for issues: of every fetched item
    without the [pull_request] key) in the seen set of its kind, and the
    delivery pass leaves that set as it is. So an identifier that is in the
    seen set when a cycle starts is not notified in that cycle; an item
    fetched in one cycle is not notified in the next; and over two
    successive cycles, or any number of them, an identifier is handed to
    [send_discord_message] at most once per kind, whatever the channel
    answers. *)
Theorem marked_before_delivery (cfg : config) (W : world) :
  (forall b,
     let r := session_get W (trace b) (pulls_url cfg) (request_headers cfg) in
     let l := default [] (fetched r) in
     let asked :=
       extend (EvGet (pulls_url cfg) (request_headers cfg) r :: fetch_log r) b in
     exists new marked,
       partition_new PullRequest l asked = (Ok new, marked)
       /\ trace marked = trace asked
       /\ (forall x, x ∈ l -> id x ∈ seen_prs marked)
       /\ check_pull_requests cfg W b
          = notify_new cfg W PullRequest new marked
       /\ seen_prs (exec (notify_new cfg W PullRequest new) marked)
          = seen_prs marked)
  /\ (forall b,
     let r := session_get W (trace b) (issues_url cfg) (request_headers cfg) in
     let l := issues_only (default [] (fetched r)) in
     let asked :=
       extend (EvGet (issues_url cfg) (request_headers cfg) r :: fetch_log r) b in
     exists new marked,
       partition_new Issue l asked = (Ok new, marked)
       /\ trace marked = trace asked
       /\ (forall x, x ∈ l -> id x ∈ seen_issues marked)
       /\ check_issues cfg W b = notify_new cfg W Issue new marked
       /\ seen_issues (exec (notify_new cfg W Issue new) marked)
          = seen_issues marked)
  /\ (forall b k i,
        i ∈ seen k b -> count_id i (notified k (cycle_events cfg W b)) = 0%nat)
  /\ (forall b x,
        x ∈ default [] (fetched (pulls_answer cfg W b)) ->
        count_id (id x)
          (notified PullRequest
             (cycle_events cfg W (step cfg W OpCheck b))) = 0%nat)
  /\ (forall b x,
        x ∈ issues_only (default [] (fetched (issues_answer cfg W b))) ->
        count_id (id x)
          (notified Issue (cycle_events cfg W (step cfg W OpCheck b))) = 0%nat)
  /\ (forall b k i,
        (count_id i
           (notified k
              (cycle_events cfg W b
               ++ cycle_events cfg W (step cfg W OpCheck b))) <= 1)%nat)
  /\ (forall n b k i,
        (count_id i
           (notified k
              (since (trace b) (trace (run cfg W (repeat OpCheck n) b))))
         <= 1)%nat).
Proof.
  assert (forall b k i,
    i ∈ seen k b -> count_id i (notified k (cycle_events cfg W b)) = 0%nat)
    as Hseen.
  { intros b k i Hi. pose proof (cycle_potential cfg W k i b) as Hpot.
    rewrite (decide_True _ _ Hi) in Hpot. lia. }
  split; [|split; [|split; [|split; [|split; [|split]]]]].
  - intros b r l asked. unfold check_pull_requests.
    rewrite (bind_run _ _ _ _ _ (fetch_github_data_run cfg W (pulls_url cfg) b)).
    fold r. fold asked. apply (block_marks cfg W PullRequest l asked).
    unfold l. destruct (fetched r) as [[|x l']|]; simpl; auto.
  - intros b r l asked. unfold check_issues.
    rewrite (bind_run _ _ _ _ _ (fetch_github_data_run cfg W (issues_url cfg) b)).
    fold r. fold asked. apply (block_marks cfg W Issue l asked).
    unfold l. destruct (fetched r) as [[|x l']|]; simpl; auto.
  - exact Hseen.
  - intros b x Hx. apply (Hseen _ PullRequest). simpl.
    destruct (cycle_summary cfg W b)
      as (t & b2 & _ & _ & _ & _ & _ & _ & Hp & _).
    rewrite Hp. unfold ids.
    apply elem_of_union_l, elem_of_list_to_set, list_elem_of_fmap. eauto.
  - intros b x Hx. apply (Hseen _ Issue). simpl.
    destruct (cycle_summary cfg W b)
      as (t & b2 & _ & _ & _ & _ & _ & _ & _ & Hi & _).
    rewrite Hi. unfold ids.
    apply elem_of_union_l, elem_of_list_to_set, list_elem_of_fmap. eauto.
  - intros b k i. rewrite notified_app, count_id_app.
    pose proof (cycle_potential cfg W k i b) as H1.
    pose proof (cycle_potential cfg W k i (step cfg W OpCheck b)) as H2.
    repeat case_decide; lia.
  - intros n b k i.
    destruct (run_checks_potential cfg W k i n b) as (t & Ht & Hpot).
    rewrite Ht, since_app. repeat case_decide; lia.
Qed.

Lemma marked_before_delivery_witness :
  count_id 11
    (notified PullRequest
       (cycle_events Examples.cfg
          (Examples.world_of (Examples.listing [Examples.t2; Examples.t1])
             (Examples.listing []))
          (step Examples.cfg
             (Examples.world_of (Examples.listing [Examples.t2; Examples.t1])
                (Examples.listing []))
             OpCheck Examples.fresh))) = 0%nat.
Proof.
  apply (proj1 (proj2 (proj2 (proj2
           (marked_before_delivery Examples.cfg
              (Examples.world_of (Examples.listing [Examples.t2; Examples.t1])
                 (Examples.listing [])))))) Examples.fresh Examples.t1).
  change (Examples.t1 ∈ [Examples.t2; Examples.t1]).
  apply list_elem_of_further, list_elem_of_here.
Defined.

(** ** The two formatters *)

(** C2, as stated, fails: with the bot configured for the repository of the
    payload, a pull request whose body has 600 characters gets a description
    without the ["..."] marker from the webhook formatter, and an issue with
    a label gets no "Labels" field from it. *)
Lemma webhook_shape_differs :
  GITHUB_REPO Examples.cfg
    = Webhook.repository_full_name (Examples.event_of Examples.item_600)
  /\ Webhook.format_pr (Examples.event_of Examples.item_600)
     <> [webhook_shape (create_pr_embed Examples.cfg Examples.item_600)]
  /\ Webhook.format_issue (Examples.event_of Examples.item_labelled)
     <> [webhook_shape (create_issue_embed Examples.cfg Examples.item_labelled)].
Proof.
  split; [reflexivity|]. split; intros H.
  - apply (f_equal (map (fun e => length (Webhook.description e)))) in H.
    vm_compute in H. discriminate.
  - apply (f_equal (map (fun e => length (Webhook.fields e)))) in H.
    vm_compute in H. discriminate.
Qed.

(** C2, amended. For a payload of the repository the bot is configured for,
    the webhook formatter builds one embed with the title, url and color of
    the bot's embed for the same item; the bot's description is the
    webhook's followed by ["..."] when the body is longer than 500
    characters and equal to it otherwise; the bot's fields are the webhook's
    followed by the "Labels" field when the item has labels. So the two
    agree on title, url, description, color and fields exactly when the body
    has at most 500 characters and the item has no labels. *)
Theorem webhook_shape_up_to_marker_and_labels (cfg : config)
    (ev : Webhook.event) :
  GITHUB_REPO cfg = Webhook.repository_full_name ev ->
  let x := Webhook.subject ev in
  let marker := if 500 <? len (default [] (body x)) then lit "..." else [] in
  (exists w, Webhook.format_pr ev = [w]
     /\ Webhook.title w = title (create_pr_embed cfg x)
     /\ Webhook.url w = url (create_pr_embed cfg x)
     /\ Webhook.color w = color (create_pr_embed cfg x)
     /\ description (create_pr_embed cfg x) = Webhook.description w ++ marker
     /\ fields (create_pr_embed cfg x) = Webhook.fields w ++ labels_field x)
  /\ (exists w, Webhook.format_issue ev = [w]
     /\ Webhook.title w = title (create_issue_embed cfg x)
     /\ Webhook.url w = url (create_issue_embed cfg x)
     /\ Webhook.color w = color (create_issue_embed cfg x)
     /\ description (create_issue_embed cfg x) = Webhook.description w ++ marker
     /\ fields (create_issue_embed cfg x) = Webhook.fields w ++ labels_field x)
  /\ (len (default [] (body x)) <= 500 -> labels x = [] ->
      Webhook.format_pr ev = [webhook_shape (create_pr_embed cfg x)]
      /\ Webhook.format_issue ev = [webhook_shape (create_issue_embed cfg x)]).
Proof.
  intros Hrepo x marker.
  assert (embed_description x
          = (if truthy (body x) then slice_to 500 (default [] (body x))
             else no_description) ++ marker) as Hd.
  { unfold embed_description, marker. f_equal.
    destruct (body x) as [[|c s]|]; simpl; try done.
    all: by destruct (500 <? _). }
  split; [|split].
  - eexists. split; [reflexivity|]. simpl. fold x.
    rewrite Hd, <- Hrepo. done.
  - eexists. split; [reflexivity|]. simpl. fold x.
    rewrite Hd, <- Hrepo. done.
  - intros Hlen Hlab.
    assert (marker = []) as Hm
      by (unfold marker; by rewrite (proj2 (Z.ltb_ge _ _)) by lia).
    unfold Webhook.format_pr, Webhook.format_issue, webhook_shape. simpl.
    fold x. rewrite Hd, Hm, app_nil_r, <- Hrepo.
    unfold labels_field. by rewrite Hlab.
Qed.

Lemma webhook_shape_up_to_marker_and_labels_witness :
  Webhook.format_pr (Examples.event_of Examples.item_plain)
    = [webhook_shape (create_pr_embed Examples.cfg Examples.item_plain)]
  /\ Webhook.format_issue (Examples.event_of Examples.item_plain)
     = [webhook_shape (create_issue_embed Examples.cfg Examples.item_plain)].
Proof.
  apply (proj2 (proj2 (webhook_shape_up_to_marker_and_labels Examples.cfg
                         (Examples.event_of Examples.item_plain) eq_refl))).
  - vm_compute. discriminate.
  - reflexivity.
Defined.

(** C3. The description of the embed built for a pull request or an issue is
    the first 500 characters of the body followed by ["..."] when the body
    is longer than 500 characters, the body itself when it is non-empty and
    at most 500 characters long, and ["No description provided"] when the
    body is absent or empty. *)
Theorem description_truncation (cfg : config) (x : item) (d : str) :
  d = description (create_pr_embed cfg x)
  \/ d = description (create_issue_embed cfg x) ->
  (forall s, body x = Some s -> (500 < length s)%nat ->
     d = firstn 500 s ++ lit "...")
  /\ (forall s, body x = Some s -> s <> [] -> (length s <= 500)%nat -> d = s)
  /\ (body x = None \/ body x = Some [] -> d = lit "No description provided").
Proof.
  intros Hd.
  assert (d = embed_description x) as -> by (by destruct Hd).
  unfold embed_description, truthy, len, slice_to. repeat split.
  - intros s -> Hlen. destruct s as [|c s]; [simpl in Hlen; lia|]. simpl default.
    rewrite (proj2 (Z.ltb_lt _ _)) by lia. done.
  - intros s -> Hne Hlen. destruct s as [|c s]; [done|]. simpl default.
    rewrite (proj2 (Z.ltb_ge _ _)) by lia.
    rewrite firstn_all2 by done. by rewrite app_nil_r.
  - intros [->| ->]; by rewrite app_nil_r.
Qed.

Lemma description_truncation_witness :
  description (create_pr_embed Examples.cfg Examples.item_600)
    = firstn 500 Examples.body_600 ++ lit "..."
  /\ description (create_issue_embed Examples.cfg Examples.item_400)
      = Examples.body_400
  /\ description (create_pr_embed Examples.cfg Examples.item_null)
      = lit "No description provided".
Proof.
  split; [|split].
  - apply (proj1 (description_truncation Examples.cfg Examples.item_600 _
                    (or_introl eq_refl)) Examples.body_600).
    + reflexivity.
    + vm_compute. lia.
  - apply (proj1 (proj2 (description_truncation Examples.cfg Examples.item_400 _
                           (or_intror eq_refl))) Examples.body_400).
    + reflexivity.
    + discriminate.
    + vm_compute. lia.
  - apply (proj2 (proj2 (description_truncation Examples.cfg Examples.item_null _
                           (or_introl eq_refl)))).
    left. reflexivity.
Defined.

(** ** Order and filtering *)

(** C4. In a cycle the new items of each kind are handed to
    [send_discord_message] in the reverse of their order in the fetched
    list, each with the embed built from it, and their embeds reach
    [channel.send] in that same order: the items whose embeds are sent are a
    subsequence of the notified ones, all of them when the channel is found,
    and the items whose embeds the channel accepts are a subsequence of
    those, all of them when every send succeeds. When the fetched list is in
    descending order of creation time, the notified items, the items sent
    and the items accepted are in ascending order: oldest first. *)
Theorem oldest_first (cfg : config) (W : world) (instant : str -> Z)
    (b : bot) :
  let prs := default [] (fetched (pulls_answer cfg W b)) in
  let listing := default [] (fetched (issues_answer cfg W b)) in
  let descending x y := instant (created_at y) < instant (created_at x) in
  let ascending x y := instant (created_at x) < instant (created_at y) in
  let ev := cycle_events cfg W b in
  calls ev
  = map (fun x => (PullRequest, x, create_pr_embed cfg x))
      (rev (new_of (seen_prs b) prs))
    ++ map (fun x => (Issue, x, create_issue_embed cfg x))
         (rev (new_of (seen_issues b) (issues_only listing)))
  /\ notified PullRequest ev = rev (new_of (seen_prs b) prs)
  /\ notified Issue ev = rev (new_of (seen_issues b) (issues_only listing))
  /\ (StronglySorted descending prs ->
      StronglySorted ascending (notified PullRequest ev))
  /\ (StronglySorted descending listing ->
      StronglySorted ascending (notified Issue ev))
  /\ (NoDup (id <$> prs) -> (forall x, x ∈ prs -> id x ∉ seen_prs b) ->
      notified PullRequest ev = rev prs)
  /\ exists sent_prs got_prs sent_issues got_issues,
       (sends ev).*1 = map (create_pr_embed cfg) sent_prs
                       ++ map (create_issue_embed cfg) sent_issues
       /\ delivered ev = map (create_pr_embed cfg) got_prs
                         ++ map (create_issue_embed cfg) got_issues
       /\ got_prs `sublist_of` sent_prs
       /\ sent_prs `sublist_of` notified PullRequest ev
       /\ got_issues `sublist_of` sent_issues
       /\ sent_issues `sublist_of` notified Issue ev
       /\ ((forall t, get_channel W t (DISCORD_CHANNEL_ID cfg) = true) ->
           sent_prs = notified PullRequest ev
           /\ sent_issues = notified Issue ev)
       /\ ((forall t, get_channel W t (DISCORD_CHANNEL_ID cfg) = true) ->
           (forall t e, channel_send W t e = Ok tt) ->
           got_prs = notified PullRequest ev
           /\ got_issues = notified Issue ev)
       /\ (StronglySorted descending prs ->
           StronglySorted ascending sent_prs
           /\ StronglySorted ascending got_prs)
       /\ (StronglySorted descending listing ->
           StronglySorted ascending sent_issues
           /\ StronglySorted ascending got_issues).
Proof.
  intros prs listing descending ascending ev.
  destruct (cycle_summary cfg W b)
    as (t & b2 & _ & _ & _ & _ & _ & _ & _ & _ & Hnp & Hni & _ & _ & _ & Hc).
  fold prs ev in Hnp, Hc. fold listing ev in Hni, Hc.
  assert (StronglySorted descending prs ->
          StronglySorted ascending (notified PullRequest ev)) as Hsp.
  { intros Hs. rewrite Hnp.
    apply (rev_sorted descending), new_of_sorted, Hs. }
  assert (StronglySorted descending listing ->
          StronglySorted ascending (notified Issue ev)) as Hsi.
  { intros Hs. rewrite Hni.
    apply (rev_sorted descending), new_of_sorted, issues_only_sorted, Hs. }
  split; [done|]. split; [done|]. split; [done|].
  split; [done|]. split; [done|]. split.
  - intros Hnd Hnew. rewrite Hnp. by rewrite new_of_distinct.
  - destruct (cycle_sent_items cfg W b)
      as (sp & gp & si & gi & H1 & H2 & H3 & H4 & H5 & H6 & H7 & H8).
    fold ev in H1, H2, H4, H6, H7, H8.
    exists sp, gp, si, gi.
    split; [done|]. split; [done|]. split; [done|]. split; [done|].
    split; [done|]. split; [done|]. split; [done|]. split; [done|].
    split.
    + intros Hs. specialize (Hsp Hs).
      split; [by apply (sublist_sorted _ _ _ H4)|].
      apply (sublist_sorted _ _ _ H3). by apply (sublist_sorted _ _ _ H4).
    + intros Hs. specialize (Hsi Hs).
      split; [by apply (sublist_sorted _ _ _ H6)|].
      apply (sublist_sorted _ _ _ H5). by apply (sublist_sorted _ _ _ H6).
Qed.

Lemma oldest_first_witness :
  delivered
    (cycle_events Examples.cfg
       (Examples.reachable
          (Examples.listing [Examples.t3; Examples.t2; Examples.t1])
          (Examples.listing []))
       Examples.fresh)
  = [create_pr_embed Examples.cfg Examples.t1;
     create_pr_embed Examples.cfg Examples.t2;
     create_pr_embed Examples.cfg Examples.t3]
  /\ StronglySorted
       (fun x y =>
          Examples.instant (created_at x) < Examples.instant (created_at y))
       (notified PullRequest
          (cycle_events Examples.cfg
             (Examples.reachable
                (Examples.listing [Examples.t3; Examples.t2; Examples.t1])
                (Examples.listing []))
             Examples.fresh)).
Proof.
  destruct (oldest_first Examples.cfg
              (Examples.reachable
                 (Examples.listing [Examples.t3; Examples.t2; Examples.t1])
                 (Examples.listing []))
              Examples.instant Examples.fresh)
    as (_ & Hnp & Hni & Hsorted & _ & _
        & sp & gp & si & gi & _ & Hdel & _ & _ & _ & _ & _ & Hall & _).
  destruct (Hall (fun _ => eq_refl) (fun _ _ => eq_refl)) as [Hgp Hgi].
  split.
  - rewrite Hdel, Hgp, Hgi, Hnp, Hni. reflexivity.
  - apply Hsorted. apply (bool_decide_unpack _). vm_compute. exact I.
Defined.

(** C5. In a cycle, the items of the issue listing that carry the
    [pull_request] key are dropped before the partition: the identifiers
    added to the seen issues are those of the remaining items, every item
    handed to the issue notification is one of the remaining items, and an
    item with the key is never handed to it; its identifier is in the seen
    issues after the cycle only if it was there before or an item without
    the key carries the same identifier. *)
Theorem marked_issues_dropped (cfg : config) (W : world) (b : bot) :
  let b' := step cfg W OpCheck b in
  let listing := default [] (fetched (issues_answer cfg W b)) in
  let sent := notified Issue (cycle_events cfg W b) in
  seen_issues b' = ids (issues_only listing) ∪ seen_issues b
  /\ sent = rev (new_of (seen_issues b) (issues_only listing))
  /\ (forall y, y ∈ sent -> y ∈ listing /\ pull_request y = false)
  /\ (forall x, x ∈ listing -> pull_request x = true ->
        (x ∉ sent)
        /\ (id x ∈ seen_issues b' ->
            id x ∈ seen_issues b
            \/ exists y, y ∈ listing /\ pull_request y = false
                         /\ id y = id x)).
Proof.
  intros b' listing sent.
  destruct (cycle_summary cfg W b)
    as (t & b2 & _ & _ & _ & _ & _ & _ & _ & Hi & _ & Hni & _).
  fold b' listing in Hi. fold listing sent in Hni.
  assert (forall y, y ∈ sent -> y ∈ listing /\ pull_request y = false) as Hsent.
  { intros y Hy. rewrite Hni in Hy.
    apply list_elem_of_In in Hy. rewrite <- in_rev in Hy.
    apply list_elem_of_In, new_of_elem in Hy as [Hy _].
    by apply issues_only_elem in Hy. }
  split; [done|]. split; [done|]. split; [done|].
  intros x Hx Hmark. split.
  - intros [_ Hfalse]%Hsent. congruence.
  - rewrite Hi. intros [Hin|Hin]%elem_of_union; [right|by left].
    unfold ids in Hin.
    apply elem_of_list_to_set, list_elem_of_fmap in Hin as (y & Hid & Hy).
    apply issues_only_elem in Hy as [Hy Hfalse]. eauto.
Qed.

Lemma marked_issues_dropped_witness :
  Examples.marked
  ∉ notified Issue
      (cycle_events Examples.cfg
         (Examples.world_of (Examples.listing [])
            (Examples.listing [Examples.marked; Examples.t1]))
         Examples.fresh).
Proof.
  apply (proj2 (proj2 (proj2
           (marked_issues_dropped Examples.cfg
              (Examples.world_of (Examples.listing [])
                 (Examples.listing [Examples.marked; Examples.t1]))
              Examples.fresh))) Examples.marked).
  - change (Examples.marked ∈ [Examples.marked; Examples.t1]).
    apply list_elem_of_here.
  - reflexivity.
Defined.

(** ** The seen sets *)

(** C6, as stated, fails: an identifier can leave a seen set with no reset.
    In a world where the write of the state file raises and leaves the file
    as it was (two empty lists), a cycle adds the identifier 12 to the seen
    pull requests; when [on_ready] then runs [load_seen_items] again, the
    set is replaced by the list of the file and 12 is gone. *)
Lemma reload_forgets_without_reset :
  12 ∈ seen_prs
         (run Examples.cfg
            (Examples.write_protected (Examples.listing [Examples.t2])
               (Examples.listing []))
            [OpCheck] Examples.after_reset)
  /\ 12 ∉ seen_prs
            (run Examples.cfg
               (Examples.write_protected (Examples.listing [Examples.t2])
                  (Examples.listing []))
               [OpCheck; OpReady] Examples.after_reset).
Proof.
  split; apply (bool_decide_unpack _); vm_compute; exact I.
Qed.

(** C6, amended. A check cycle never removes an identifier from either seen
    set, and neither does any run of check cycles, status commands and
    refused reset commands: the sets only grow. Two operations can remove
    identifiers. The reset command, issued by an administrator in the
    configured channel, empties both sets. A reload of the state file
    ([load_seen_items], run by [on_ready]) replaces them: it keeps the sets
    when there is no state file or when the file holds what is in memory,
    it sets each of them to the list the file holds under its key, and it
    empties both when reading the file raises. *)
Theorem seen_only_grows (cfg : config) (W : world) :
  (forall b k, seen k b ⊆ seen k (step cfg W OpCheck b))
  /\ (forall ops b k,
        Forall (keeps_seen cfg) ops -> seen k b ⊆ seen k (run cfg W ops b))
  /\ (forall ctx b k,
        ctx_administrator ctx = true ->
        ctx_channel_id ctx = DISCORD_CHANNEL_ID cfg ->
        seen k (step cfg W (OpReset ctx) b) = ∅)
  /\ (forall b k,
        seen_file b = FileAbsent -> seen k (step cfg W OpReady b) = seen k b)
  /\ (forall b k,
        seen_file b
        = FileObject (Some (JIds (elements (seen_prs b))))
            (Some (JIds (elements (seen_issues b)))) ->
        seen k (step cfg W OpReady b) = seen k b)
  /\ (forall b p i lp li,
        seen_file b = FileObject p i ->
        default (JIds []) p = JIds lp ->
        default (JIds []) i = JIds li ->
        seen_prs (step cfg W OpReady b) = list_to_set lp
        /\ seen_issues (step cfg W OpReady b) = list_to_set li)
  /\ (forall b k e,
        fst (read_seen_file b) = Raise e ->
        seen k (step cfg W OpReady b) = ∅).
Proof.
  assert (forall b p i lp li,
    seen_file b = FileObject p i ->
    default (JIds []) p = JIds lp ->
    default (JIds []) i = JIds li ->
    seen_prs (step cfg W OpReady b) = list_to_set lp
    /\ seen_issues (step cfg W OpReady b) = list_to_set li) as Hload.
  { intros b p i lp li Hf Hp Hi.
    unfold step, run_op, load_seen_items, try_except, read_seen_file.
    unfold mbind, M_bind, gets. rewrite Hf. simpl. by rewrite Hp, Hi. }
  split; [|split; [|split; [|split; [|split; [|split]]]]].
  - intros b k. apply check_seen_grows.
  - intros ops. induction ops as [|o ops IH]; intros b k Hops; [done|].
    apply Forall_cons in Hops as [Ho Hops].
    change (run cfg W (o :: ops) b) with (run cfg W ops (step cfg W o b)).
    etrans; [|apply IH, Hops].
    destruct o as [| |ctx|ctx]; simpl in Ho.
    + done.
    + apply check_seen_grows.
    + destruct (status_seen cfg W ctx b) as [Hp Hi].
      destruct k; simpl; [by rewrite Hp|by rewrite Hi].
    + by rewrite reset_refused.
  - intros ctx b k Hadm Hch. rewrite reset_run by done. by destruct k.
  - intros b k Hf.
    unfold step, run_op, load_seen_items, try_except, read_seen_file.
    unfold mbind, M_bind, gets. by rewrite Hf.
  - intros b k Hf.
    destruct (Hload b _ _ _ _ Hf eq_refl eq_refl) as [Hp Hi].
    destruct k; simpl; [rewrite Hp|rewrite Hi];
      apply list_to_set_elements_L.
  - exact Hload.
  - intros b k e He. unfold step, run_op.
    rewrite (load_after_failure b e He). by destruct k.
Qed.

Lemma seen_only_grows_witness :
  12 ∈ seen PullRequest
         (run Examples.cfg
            (Examples.world_of (Examples.listing [Examples.t3])
               (Examples.listing []))
            [OpCheck; OpStatus Examples.admin_here;
             OpReset Examples.guest_here; OpCheck]
            (step Examples.cfg Examples.small_repo OpCheck Examples.fresh))
  /\ seen PullRequest
       (step Examples.cfg Examples.small_repo OpReady
          {| seen_prs := {[11; 12]}; seen_issues := {[13]};
             seen_file := FileObject (Some (JIds [12])) None; trace := [] |})
     = {[12]}.
Proof.
  split.
  - apply (proj1 (proj2 (seen_only_grows Examples.cfg
             (Examples.world_of (Examples.listing [Examples.t3])
                (Examples.listing []))))
             [OpCheck; OpStatus Examples.admin_here;
              OpReset Examples.guest_here; OpCheck]
             (step Examples.cfg Examples.small_repo OpCheck Examples.fresh)
             PullRequest).
    + repeat constructor.
    + apply (bool_decide_unpack _). vm_compute. exact I.
  - destruct (proj1 (proj2 (proj2 (proj2 (proj2 (proj2
               (seen_only_grows Examples.cfg Examples.small_repo))))))
               {| seen_prs := {[11; 12]}; seen_issues := {[13]};
                  seen_file := FileObject (Some (JIds [12])) None;
                  trace := [] |}
               (Some (JIds [12])) None [12] [] eq_refl eq_refl eq_refl)
      as [Hp _].
    unfold seen. rewrite Hp. apply (bool_decide_unpack _). vm_compute. exact I.
Defined.

(** ** Fetching *)

(** C7, as stated, fails: a response with status 200 whose body cannot be
    decoded makes the fetch return [None]. *)
Lemma fetch_200_unavailable :
  exists resp,
    session_get (Examples.world_of Examples.garbled Examples.garbled)
      (trace Examples.fresh) (pulls_url Examples.cfg)
      (request_headers Examples.cfg) = Ok resp
    /\ status resp = 200
    /\ fst (fetch_github_data Examples.cfg
              (Examples.world_of Examples.garbled Examples.garbled)
              (pulls_url Examples.cfg) Examples.fresh) = Ok None.
Proof. eexists. split; [reflexivity|]. split; reflexivity. Qed.

(** C7, amended. The fetch never raises. It returns the parsed list exactly
    when the request is answered with status 200 and the body of the
    response decodes; it returns [None] when the status is 200 and decoding
    the body raises, when the status is 403 (printing the rate-limit line),
    when the status is anything else (printing the status), and when the
    request itself raises. *)
Theorem fetch_github_data_cases (cfg : config) (W : world) (url : str)
    (b : bot) :
  let answer := session_get W (trace b) url (request_headers cfg) in
  exists v t,
    fetch_github_data cfg W url b
    = (Ok v, extend (EvGet url (request_headers cfg) answer :: t) b)
    /\ (forall resp l, answer = Ok resp -> status resp = 200 ->
          json resp = Ok l -> v = Some l /\ t = [])
    /\ (forall resp e, answer = Ok resp -> status resp = 200 ->
          json resp = Raise e -> v = None /\ t = [EvPrint (LogFetchError e)])
    /\ (forall resp, answer = Ok resp -> status resp = 403 ->
          v = None /\ t = [EvPrint LogRateLimit])
    /\ (forall resp, answer = Ok resp -> status resp <> 200 ->
          status resp <> 403 ->
          v = None /\ t = [EvPrint (LogApiError (status resp))])
    /\ (forall e, answer = Raise e ->
          v = None /\ t = [EvPrint (LogFetchError e)])
    /\ (is_Some v <->
        exists resp l, answer = Ok resp /\ status resp = 200
                       /\ json resp = Ok l).
Proof.
  intros answer. exists (fetched answer), (fetch_log answer).
  split; [apply fetch_github_data_run|].
  destruct answer as [resp|err]; simpl.
  - destruct (status resp =? 200) eqn:H200;
      [apply Z.eqb_eq in H200; destruct (json resp) as [l|e] eqn:Hj
      |apply Z.eqb_neq in H200; destruct (status resp =? 403) eqn:H403;
       [apply Z.eqb_eq in H403|apply Z.eqb_neq in H403]].
    all: repeat split; intros;
      repeat match goal with
             | H : is_Some _ |- _ => destruct H
             | H : exists _, _ |- _ => destruct H
             | H : _ /\ _ |- _ => destruct H
             end;
      simplify_eq; try done; try lia; try congruence; eauto 6.
  - repeat split; intros;
      repeat match goal with
             | H : is_Some _ |- _ => destruct H
             | H : exists _, _ |- _ => destruct H
             | H : _ /\ _ |- _ => destruct H
             end;
      simplify_eq; try done.
Qed.

Lemma fetch_github_data_cases_witness :
  fst (fetch_github_data Examples.cfg
         (Examples.world_of Examples.rate_limited Examples.rate_limited)
         (pulls_url Examples.cfg) Examples.fresh) = Ok None
  /\ fst (fetch_github_data Examples.cfg
            (Examples.world_of (Examples.listing [Examples.t1])
               (Examples.listing []))
            (pulls_url Examples.cfg) Examples.fresh) = Ok (Some [Examples.t1]).
Proof.
  split.
  - destruct (fetch_github_data_cases Examples.cfg
                (Examples.world_of Examples.rate_limited Examples.rate_limited)
                (pulls_url Examples.cfg) Examples.fresh)
      as (v & t & Hrun & _ & _ & H403 & _).
    rewrite Hrun. simpl. f_equal.
    apply (H403 {| status := 403; json := Raise JSONDecodeError |});
      reflexivity.
  - destruct (fetch_github_data_cases Examples.cfg
                (Examples.world_of (Examples.listing [Examples.t1])
                   (Examples.listing []))
                (pulls_url Examples.cfg) Examples.fresh)
      as (v & t & Hrun & H200 & _).
    rewrite Hrun. simpl. f_equal.
    apply (H200 {| status := 200; json := Ok [Examples.t1] |} [Examples.t1]);
      reflexivity.
Defined.

(** ** Unavailable listings *)

(** C8. When the pull-request fetch of a cycle returns [None], the cycle
    still completes: the seen pull requests are unchanged and no pull
    request is notified; the issue listing is requested, its new issues are
    marked and notified as in any other cycle, their embeds reaching
    [channel.send] when the channel is found; and the last thing the cycle
    does is its one write of both seen sets to the state file. When the
    world accepts that write the file holds the two sets; when the write
    raises, the error is printed and the file is what the failed write
    left. *)
Theorem unavailable_pulls_isolated (cfg : config) (W : world) (b : bot) :
  fetched (pulls_answer cfg W b) = None ->
  let b' := step cfg W OpCheck b in
  let issues := issues_only (default [] (fetched (issues_answer cfg W b))) in
  let events := cycle_events cfg W b in
  let P := elements (seen_prs b') in
  let I := elements (seen_issues b') in
  check_repository cfg W b = (Ok tt, b')
  /\ seen_prs b' = seen_prs b
  /\ notified PullRequest events = []
  /\ In (EvGet (issues_url cfg) (request_headers cfg) (issues_answer cfg W b))
        events
  /\ seen_issues b' = ids issues ∪ seen_issues b
  /\ notified Issue events = rev (new_of (seen_issues b) issues)
  /\ ((forall t, get_channel W t (DISCORD_CHANNEL_ID cfg) = true) ->
      (sends events).*1
      = map (create_issue_embed cfg) (rev (new_of (seen_issues b) issues)))
  /\ exists t,
       writes t = []
       /\ requests t = [(pulls_url cfg, request_headers cfg);
                        (issues_url cfg, request_headers cfg)]
       /\ (file_write W (trace b ++ t) P I = None ->
           events = t ++ [EvWrite P I (Ok tt)]
           /\ seen_file b' = FileObject (Some (JIds P)) (Some (JIds I)))
       /\ (forall e leftover,
             file_write W (trace b ++ t) P I = Some (e, leftover) ->
             events = t ++ [EvWrite P I (Raise e); EvPrint (LogSaveError e)]
             /\ seen_file b' = leftover).
Proof.
  intros Hnone b' issues events P I.
  destruct (cycle_summary cfg W b)
    as (t & b2 & Hev & Ht & _ & Hp2 & Hi2 & Hfile & Hp & Hi & Hnp & Hni
        & _ & Hget & Hrun & _).
  fold b' in Hp2, Hi2, Hfile, Hp, Hi, Hrun. fold events in Hev, Hnp, Hni.
  rewrite Hnone in Hp, Hnp. simpl in Hp, Hnp.
  split; [done|]. split; [rewrite Hp, ids_nil; set_solver|].
  split; [done|].
  split; [rewrite Hev; apply in_or_app; by left|].
  split; [done|]. split; [done|]. split.
  - intros Hch.
    destruct (cycle_sent_items cfg W b)
      as (sp & gp & si & gi & H1 & _ & _ & _ & _ & _ & H7 & _).
    fold events in H1, H7. destruct (H7 Hch) as [-> ->].
    rewrite H1, Hnp, Hni. done.
  - destruct (cycle_save_last cfg W b) as (t' & Hw & Hr & _ & Hok & Hfail).
    exists t'. done.
Qed.

Lemma unavailable_pulls_isolated_witness :
  notified Issue
    (cycle_events Examples.cfg
       (Examples.world_of Examples.rate_limited
          (Examples.listing [Examples.t2; Examples.t1]))
       Examples.fresh)
  = [Examples.t1; Examples.t2]
  /\ seen_file
       (step Examples.cfg
          (Examples.world_of Examples.rate_limited
             (Examples.listing [Examples.t2; Examples.t1]))
          OpCheck Examples.fresh)
     = FileObject (Some (JIds [])) (Some (JIds (elements ({[11; 12]} : gset Z)))).
Proof.
  destruct (unavailable_pulls_isolated Examples.cfg
              (Examples.world_of Examples.rate_limited
                 (Examples.listing [Examples.t2; Examples.t1]))
              Examples.fresh eq_refl)
    as (_ & _ & _ & _ & _ & Hni & _ & t & _ & _ & Hok & _).
  split; [exact Hni|].
  destruct (Hok eq_refl) as [_ Hfile]. rewrite Hfile.
  vm_compute. reflexivity.
Defined.

(** ** Reset and reload *)

(** C9. The reset command, issued by an administrator in the configured
    channel, empties both seen sets and writes the cleared state (two empty
    lists) to the state file, which holds it when the write succeeds. In the
    cycle that follows, every fetched pull request and every fetched issue
    has its identifier notified; when the identifiers of a fetched list are
    distinct, as the API delivers them, each item of the list is notified,
    oldest first. In any later cycle, an item that is fetched and whose
    identifier has not been notified since the reset is notified in that
    cycle, exactly once. *)
Theorem reset_then_all_new (cfg : config) (W : world) (ctx : context)
    (b : bot) :
  ctx_administrator ctx = true ->
  ctx_channel_id ctx = DISCORD_CHANNEL_ID cfg ->
  let b1 := step cfg W (OpReset ctx) b in
  let prs := default [] (fetched (pulls_answer cfg W b1)) in
  let issues := issues_only (default [] (fetched (issues_answer cfg W b1))) in
  let sent := notified PullRequest (cycle_events cfg W b1) in
  let sent' := notified Issue (cycle_events cfg W b1) in
  seen_prs b1 = ∅ /\ seen_issues b1 = ∅
  /\ (exists r t, since (trace b) (trace b1) = EvWrite [] [] r :: t)
  /\ (file_write W (trace b) [] [] = None ->
      seen_file b1 = FileObject (Some (JIds [])) (Some (JIds [])))
  /\ (forall x, x ∈ prs -> exists y, y ∈ sent /\ id y = id x)
  /\ (forall x, x ∈ issues -> exists y, y ∈ sent' /\ id y = id x)
  /\ (NoDup (id <$> prs) -> sent = rev prs)
  /\ (NoDup (id <$> issues) -> sent' = rev issues)
  /\ (forall n x,
        let bn := run cfg W (repeat OpCheck n) b1 in
        x ∈ default [] (fetched (pulls_answer cfg W bn)) ->
        count_id (id x)
          (notified PullRequest (since (trace b1) (trace bn))) = 0%nat ->
        count_id (id x)
          (notified PullRequest (cycle_events cfg W bn)) = 1%nat)
  /\ (forall n x,
        let bn := run cfg W (repeat OpCheck n) b1 in
        x ∈ issues_only (default [] (fetched (issues_answer cfg W bn))) ->
        count_id (id x)
          (notified Issue (since (trace b1) (trace bn))) = 0%nat ->
        count_id (id x) (notified Issue (cycle_events cfg W bn)) = 1%nat).
Proof.
  intros Hadm Hch b1 prs issues sent sent'.
  assert (seen_prs b1 = ∅ /\ seen_issues b1 = ∅) as [Hp Hi]
    by (unfold b1; by rewrite reset_run).
  split; [done|]. split; [done|].
  set (cleared := set_seen_issues ∅ (set_seen_prs ∅ b)).
  destruct (save_events_cleared W cleared eq_refl eq_refl) as [Hev Hfile].
  change (trace cleared) with (trace b) in Hev, Hfile.
  split; [|split].
  - unfold b1. rewrite reset_run by done. fold cleared.
    unfold extend. simpl. rewrite since_app, Hev.
    destruct (file_write W (trace b) [] []) as [[e leftover]|]; simpl; eauto.
  - intros Hw. unfold b1. rewrite reset_run by done. fold cleared.
    simpl. by rewrite Hfile, Hw.
  - destruct (cycle_from_empty cfg W b1 Hp Hi) as (H1 & H2 & H3 & H4).
    split; [done|]. split; [done|]. split; [done|]. split; [done|]. split.
    + intros n x bn Hx Hnone.
      apply (notified_when_first_fetched cfg W PullRequest); [done|done|].
      destruct (cycle_summary cfg W bn)
        as (t & b2 & _ & _ & _ & _ & _ & _ & Hsp & _).
      change (id x ∈ seen_prs (step cfg W OpCheck bn)).
      rewrite Hsp. unfold ids.
      apply elem_of_union_l, elem_of_list_to_set, list_elem_of_fmap. eauto.
    + intros n x bn Hx Hnone.
      apply (notified_when_first_fetched cfg W Issue); [done|done|].
      destruct (cycle_summary cfg W bn)
        as (t & b2 & _ & _ & _ & _ & _ & _ & _ & Hsi & _).
      change (id x ∈ seen_issues (step cfg W OpCheck bn)).
      rewrite Hsi. unfold ids.
      apply elem_of_union_l, elem_of_list_to_set, list_elem_of_fmap. eauto.
Qed.

Lemma reset_then_all_new_witness :
  notified PullRequest
    (cycle_events Examples.cfg
       (Examples.world_of (Examples.listing [Examples.t2; Examples.t1])
          (Examples.listing []))
       (step Examples.cfg
          (Examples.world_of (Examples.listing [Examples.t2; Examples.t1])
             (Examples.listing []))
          (OpReset Examples.admin_here)
          (step Examples.cfg
             (Examples.world_of (Examples.listing [Examples.t2; Examples.t1])
                (Examples.listing []))
             OpCheck Examples.fresh)))
  = [Examples.t1; Examples.t2].
Proof.
  apply (proj1 (proj2 (proj2 (proj2 (proj2 (proj2 (proj2
           (reset_then_all_new Examples.cfg
              (Examples.world_of (Examples.listing [Examples.t2; Examples.t1])
                 (Examples.listing []))
              Examples.admin_here
              (step Examples.cfg
                 (Examples.world_of
                    (Examples.listing [Examples.t2; Examples.t1])
                    (Examples.listing []))
                 OpCheck Examples.fresh)
              eq_refl eq_refl)))))))).
  apply (bool_decide_unpack _). vm_compute. exact I.
Defined.

(** C10. When reading the state file raises (the file cannot be opened, is
    not JSON, is not an object, or holds something that is not a list under
    one of its keys), [load_seen_items] catches the exception, prints it and
    leaves both seen sets empty, whatever they held before. The cycle that
    follows then notifies about every pull request and every issue it
    fetches. *)
Theorem load_failure_forgets (cfg : config) (W : world) (b : bot) :
  (seen_file b = FileUnreadable -> fst (read_seen_file b) = Raise OSError)
  /\ (seen_file b = FileMalformed ->
      fst (read_seen_file b) = Raise JSONDecodeError)
  /\ (seen_file b = FileNotObject ->
      fst (read_seen_file b) = Raise AttributeError)
  /\ (forall p i, seen_file b = FileObject p i ->
        p = Some JScalar \/ i = Some JScalar ->
        fst (read_seen_file b) = Raise TypeError)
  /\ (forall e, fst (read_seen_file b) = Raise e ->
        let b' := step cfg W OpReady b in
        let prs := default [] (fetched (pulls_answer cfg W b')) in
        let issues :=
          issues_only (default [] (fetched (issues_answer cfg W b'))) in
        let sent := notified PullRequest (cycle_events cfg W b') in
        let sent' := notified Issue (cycle_events cfg W b') in
        load_seen_items b = (Ok tt, b')
        /\ seen_prs b' = ∅ /\ seen_issues b' = ∅
        /\ seen_file b' = seen_file b
        /\ trace b' = trace b ++ [EvPrint (LogLoadError e)]
        /\ (forall x, x ∈ prs -> exists y, y ∈ sent /\ id y = id x)
        /\ (forall x, x ∈ issues -> exists y, y ∈ sent' /\ id y = id x)
        /\ (NoDup (id <$> prs) -> sent = rev prs)
        /\ (NoDup (id <$> issues) -> sent' = rev issues)).
Proof.
  split; [|split; [|split; [|split]]].
  - intros Hf. unfold read_seen_file, mbind, M_bind, gets. by rewrite Hf.
  - intros Hf. unfold read_seen_file, mbind, M_bind, gets. by rewrite Hf.
  - intros Hf. unfold read_seen_file, mbind, M_bind, gets. by rewrite Hf.
  - intros p i Hf Hscalar.
    unfold read_seen_file, mbind, M_bind, gets. rewrite Hf.
    destruct Hscalar as [-> | ->]; [done|].
    by destruct p as [[lp|]|].
  - intros e He b' prs issues sent sent'.
    assert (b' = {| seen_prs := ∅; seen_issues := ∅; seen_file := seen_file b;
                    trace := trace b ++ [EvPrint (LogLoadError e)] |}) as Hb'.
    { unfold b', step, run_op. by rewrite (load_after_failure b e He). }
    split; [by rewrite Hb'; apply load_after_failure|].
    split; [by rewrite Hb'|]. split; [by rewrite Hb'|].
    split; [by rewrite Hb'|]. split; [by rewrite Hb'|].
    apply cycle_from_empty; by rewrite Hb'.
Qed.

Lemma load_failure_forgets_witness :
  seen_prs
    (step Examples.cfg
       (Examples.world_of (Examples.listing []) (Examples.listing []))
       OpReady
       {| seen_prs := {[11; 12]}; seen_issues := {[13]};
          seen_file := FileMalformed; trace := [] |}) = ∅.
Proof.
  apply (proj2 (proj2 (proj2 (proj2
           (load_failure_forgets Examples.cfg
              (Examples.world_of (Examples.listing []) (Examples.listing []))
              {| seen_prs := {[11; 12]}; seen_issues := {[13]};
                 seen_file := FileMalformed; trace := [] |}))))
           JSONDecodeError).
  reflexivity.
Defined.

(** * Further properties *)

(** ** The cycle, again *)

(** X1. A cycle over listings as the API delivers them makes exactly two
    requests, for the pull requests and then for the issues, with the same
    headers, and sends no command reply. Its last action is its one write
    of the state file, with the two seen sets as they are when the cycle
    ends: when the world accepts the write the file holds the two sets, and
    when the write raises, the error line follows and the file is what the
    failed write left. The headers are the [Accept] header, followed by
    [Authorization: token <token>] when a token is configured. *)
Theorem cycle_requests_and_write (cfg : config) (W : world) (b : bot) :
  let b' := step cfg W OpCheck b in
  let ev := cycle_events cfg W b in
  let P := elements (seen_prs b') in
  let I := elements (seen_issues b') in
  replies ev = []
  /\ request_headers cfg
     = (lit "Accept", lit "application/vnd.github.v3+json")
       :: match GITHUB_TOKEN cfg with
          | [] => []
          | _ :: _ => [(lit "Authorization", lit "token " ++ GITHUB_TOKEN cfg)]
          end
  /\ exists t,
       requests t = [(pulls_url cfg, request_headers cfg);
                     (issues_url cfg, request_headers cfg)]
       /\ writes t = []
       /\ (file_write W (trace b ++ t) P I = None ->
           ev = t ++ [EvWrite P I (Ok tt)]
           /\ seen_file b' = FileObject (Some (JIds P)) (Some (JIds I)))
       /\ (forall e leftover,
             file_write W (trace b ++ t) P I = Some (e, leftover) ->
             ev = t ++ [EvWrite P I (Raise e); EvPrint (LogSaveError e)]
             /\ seen_file b' = leftover).
Proof.
  intros b' ev P I.
  destruct (cycle_projections cfg W b) as (_ & _ & _ & Hy & _).
  split; [done|]. split.
  - unfold request_headers. by destruct (GITHUB_TOKEN cfg).
  - destruct (cycle_save_last cfg W b) as (t & Hr & Hw & _ & Hok & Hfail).
    exists t. done.
Qed.

Lemma cycle_requests_and_write_witness :
  last (cycle_events Examples.cfg
          (Examples.read_only (Examples.listing [Examples.t2])
             (Examples.listing [Examples.t1]))
          Examples.fresh)
  = Some (EvPrint (LogSaveError OSError))
  /\ seen_file (step Examples.cfg
                  (Examples.read_only (Examples.listing [Examples.t2])
                     (Examples.listing [Examples.t1]))
                  OpCheck Examples.fresh)
     = FileMalformed.
Proof.
  destruct (cycle_requests_and_write Examples.cfg
              (Examples.read_only (Examples.listing [Examples.t2])
                 (Examples.listing [Examples.t1]))
              Examples.fresh)
    as (_ & _ & t & _ & _ & _ & Hfail).
  destruct (Hfail OSError FileMalformed eq_refl) as [Hev Hfile].
  split; [|exact Hfile].
  rewrite Hev. rewrite last_app. reflexivity.
Defined.

(** X2. In a cycle every call of [send_discord_message] is followed, after
    its [channel.send] if the channel was found, by a sleep of one second,
    before the next call and also after the last one; there is no other
    sleep and no [channel.send] outside such a call. *)
Theorem sleep_per_notification (cfg : config) (W : world) (b : bot) :
  exists reached : list bool,
    length reached = length (calls (cycle_events cfg W b))
    /\ beats (cycle_events cfg W b)
       = flat_map (fun r : bool =>
                     if r then [Called; Sent; Slept 1]
                     else [Called; Slept 1]) reached.
Proof. apply cycle_beats. Qed.

(** X3. The embeds handed to [channel.send] in a cycle, and those the
    channel accepts, are among the embeds built for the new items and in
    their order: no other message is sent, none is sent twice, and the
    order is never changed. When the channel is always found and every send
    succeeds, the accepted embeds are exactly those built for the new
    items. *)
Theorem delivered_in_order (cfg : config) (W : world) (b : bot) :
  let ev := cycle_events cfg W b in
  (sends ev).*1 `sublist_of` (calls ev).*2
  /\ delivered ev `sublist_of` (calls ev).*2
  /\ ((forall t, get_channel W t (DISCORD_CHANNEL_ID cfg) = true) ->
      (forall t e, channel_send W t e = Ok tt) ->
      delivered ev = (calls ev).*2).
Proof.
  intros ev. unfold ev. rewrite cycle_calls_embeds.
  destruct (cycle_projections cfg W b)
    as (_ & _ & _ & _ & trp & tri & Hsends & Hdel).
  rewrite Hsends, Hdel, fmap_app.
  split; [|split].
  - apply sublist_app; apply blocks_sends_sublist.
  - apply sublist_app; apply blocks_delivered_sublist.
  - intros Hch Hsend. by rewrite !blocks_delivered_all.
Qed.

Lemma delivered_in_order_witness :
  delivered (cycle_events Examples.cfg
               (Examples.reachable (Examples.listing [Examples.t2; Examples.t1])
                  (Examples.listing [Examples.t3]))
               Examples.fresh)
  = [create_pr_embed Examples.cfg Examples.t1;
     create_pr_embed Examples.cfg Examples.t2;
     create_issue_embed Examples.cfg Examples.t3].
Proof.
  rewrite (proj2 (proj2 (delivered_in_order Examples.cfg
             (Examples.reachable (Examples.listing [Examples.t2; Examples.t1])
                (Examples.listing [Examples.t3]))
             Examples.fresh)));
    [vm_compute; reflexivity|reflexivity|reflexivity].
Defined.

(** X4. When the channel is not found, a cycle hands nothing to
    [channel.send], yet it marks every fetched identifier as seen: the new
    items of that cycle are never delivered. *)
Theorem unknown_channel_marks_seen (cfg : config) (W : world) (b : bot) :
  (forall t, get_channel W t (DISCORD_CHANNEL_ID cfg) = false) ->
  let lp := default [] (fetched (pulls_answer cfg W b)) in
  let li := issues_only (default [] (fetched (issues_answer cfg W b))) in
  let b' := step cfg W OpCheck b in
  sends (cycle_events cfg W b) = []
  /\ delivered (cycle_events cfg W b) = []
  /\ seen_prs b' = ids lp ∪ seen_prs b
  /\ seen_issues b' = ids li ∪ seen_issues b
  /\ (forall k i,
        i ∈ seen k b' ->
        count_id i (notified k (cycle_events cfg W b')) = 0%nat).
Proof.
  intros Hch lp li b'.
  destruct (cycle_projections cfg W b)
    as (_ & _ & _ & _ & trp & tri & Hsends & Hdel).
  destruct (cycle_summary cfg W b)
    as (t & b2 & _ & _ & _ & _ & _ & _ & Hp & Hi & _).
  split; [|split; [|split; [|split]]].
  - rewrite Hsends.
    by rewrite (proj1 (blocks_sends_none cfg W _ _ _ Hch)),
      (proj1 (blocks_sends_none cfg W _ _ _ Hch)).
  - rewrite Hdel. by rewrite !blocks_delivered_none.
  - done.
  - done.
  - intros k i Hin. pose proof (cycle_potential cfg W k i b') as Hpot.
    rewrite (decide_True _ _ Hin) in Hpot. lia.
Qed.

Lemma unknown_channel_marks_seen_witness :
  sends (cycle_events Examples.cfg
           (Examples.unreachable (Examples.listing [Examples.t2; Examples.t1])
              (Examples.listing [Examples.t3]))
           Examples.fresh) = []
  /\ seen_prs (step Examples.cfg
                 (Examples.unreachable
                    (Examples.listing [Examples.t2; Examples.t1])
                    (Examples.listing [Examples.t3]))
                 OpCheck Examples.fresh)
     = ids [Examples.t2; Examples.t1] ∪ ∅.
Proof.
  destruct (unknown_channel_marks_seen Examples.cfg
              (Examples.unreachable (Examples.listing [Examples.t2; Examples.t1])
                 (Examples.listing [Examples.t3]))
              Examples.fresh (fun _ => eq_refl)) as (H1 & _ & H3 & _).
  split; [exact H1|exact H3].
Defined.

(** X5. In a cycle, the identifiers notified for a kind are exactly those
    the cycle adds to the seen set of that kind. They are pairwise distinct,
    also when the listing repeats an identifier, and there are no more
    notifications than fetched items. *)
Theorem notifications_are_new_ids (cfg : config) (W : world) (b : bot)
    (k : kind) :
  let b' := step cfg W OpCheck b in
  let sent := notified k (cycle_events cfg W b) in
  ids sent = seen k b' ∖ seen k b
  /\ NoDup (id <$> sent)
  /\ (length (notified PullRequest (cycle_events cfg W b))
      <= length (default [] (fetched (pulls_answer cfg W b))))%nat
  /\ (length (notified Issue (cycle_events cfg W b))
      <= length (default [] (fetched (issues_answer cfg W b))))%nat.
Proof.
  intros b' sent.
  destruct (cycle_summary cfg W b)
    as (t & b2 & _ & _ & _ & _ & _ & _ & Hp & Hi & Hnp & Hni & _).
  fold b' in Hp, Hi.
  assert (forall s l, NoDup (id <$> rev (new_of s l))) as Hnd.
  { intros s l. rewrite rev_is_reverse, fmap_reverse.
    rewrite reverse_Permutation. apply new_of_nodup. }
  split; [|split; [|split]].
  - unfold sent. destruct k; simpl.
    + rewrite Hnp, Hp, ids_rev, ids_new_of. set_solver.
    + rewrite Hni, Hi, ids_rev, ids_new_of. set_solver.
  - unfold sent. destruct k; [rewrite Hnp|rewrite Hni]; apply Hnd.
  - rewrite Hnp, length_rev. apply new_of_length.
  - rewrite Hni, length_rev. etrans; [apply new_of_length|].
    unfold issues_only. apply length_filter.
Qed.

(** X6. A cycle that fetches nothing it has not seen (every fetched
    identifier is in the seen set of its kind, which includes empty and
    unavailable listings) leaves both seen sets as they are, calls
    [send_discord_message] for nothing and never sleeps. *)
Theorem quiet_cycle (cfg : config) (W : world) (b : bot) :
  ids (default [] (fetched (pulls_answer cfg W b))) ⊆ seen_prs b ->
  ids (issues_only (default [] (fetched (issues_answer cfg W b))))
    ⊆ seen_issues b ->
  let b' := step cfg W OpCheck b in
  let ev := cycle_events cfg W b in
  seen_prs b' = seen_prs b /\ seen_issues b' = seen_issues b
  /\ calls ev = [] /\ sends ev = [] /\ sleeps ev = []
  /\ writes ev = [(elements (seen_prs b), elements (seen_issues b))].
Proof.
  intros Hp Hi b' ev.
  destruct (cycle_summary cfg W b)
    as (t & b2 & _ & _ & _ & _ & _ & _ & Hsp & Hsi & _ & _ & _ & _ & _ & Hc).
  destruct (cycle_projections cfg W b)
    as (Hsl & _ & Hw & _ & trp & tri & Hsends & _).
  fold b' in Hsp, Hsi, Hw. fold ev in Hc, Hsl, Hw, Hsends.
  rewrite (new_of_known _ _ Hp), (new_of_known _ _ Hi) in Hc, Hsl, Hsends.
  assert (seen_prs b' = seen_prs b) as Hp' by (rewrite Hsp; set_solver).
  assert (seen_issues b' = seen_issues b) as Hi' by (rewrite Hsi; set_solver).
  rewrite Hp', Hi' in Hw. done.
Qed.

Lemma quiet_cycle_witness :
  calls (cycle_events Examples.cfg Examples.small_repo
           (step Examples.cfg Examples.small_repo OpCheck Examples.fresh))
  = []
  /\ seen_prs (step Examples.cfg Examples.small_repo OpCheck
                 (step Examples.cfg Examples.small_repo OpCheck Examples.fresh))
     = seen_prs (step Examples.cfg Examples.small_repo OpCheck Examples.fresh).
Proof.
  assert (ids (default []
                 (fetched (pulls_answer Examples.cfg Examples.small_repo
                    (step Examples.cfg Examples.small_repo OpCheck
                       Examples.fresh))))
          ⊆ seen_prs (step Examples.cfg Examples.small_repo OpCheck
                        Examples.fresh)) as Hp
    by (apply (bool_decide_unpack _); vm_compute; exact I).
  assert (ids (issues_only
                 (default []
                    (fetched (issues_answer Examples.cfg Examples.small_repo
                       (step Examples.cfg Examples.small_repo OpCheck
                          Examples.fresh)))))
          ⊆ seen_issues (step Examples.cfg Examples.small_repo OpCheck
                           Examples.fresh)) as Hi
    by (apply (bool_decide_unpack _); vm_compute; exact I).
  destruct (quiet_cycle Examples.cfg Examples.small_repo
              (step Examples.cfg Examples.small_repo OpCheck Examples.fresh)
              Hp Hi)
    as (Hsp & _ & Hc & _).
  split; [exact Hc|exact Hsp].
Defined.

(** X7. When the issue fetch of a cycle returns [None], the seen issues are
    unchanged and no issue is notified, while the pull requests fetched
    before are marked and notified as in any other cycle, and both sets are
    still written at the end. *)
Theorem unavailable_issues_isolated (cfg : config) (W : world) (b : bot) :
  fetched (issues_answer cfg W b) = None ->
  let b' := step cfg W OpCheck b in
  let prs := default [] (fetched (pulls_answer cfg W b)) in
  let ev := cycle_events cfg W b in
  seen_issues b' = seen_issues b
  /\ notified Issue ev = []
  /\ seen_prs b' = ids prs ∪ seen_prs b
  /\ notified PullRequest ev = rev (new_of (seen_prs b) prs)
  /\ writes ev = [(elements (seen_prs b'), elements (seen_issues b))].
Proof.
  intros Hnone b' prs ev.
  destruct (cycle_summary cfg W b)
    as (t & b2 & _ & _ & _ & _ & _ & _ & Hp & Hi & Hnp & Hni & _).
  destruct (cycle_projections cfg W b) as (_ & _ & Hw & _).
  fold b' in Hp, Hi, Hw. fold ev in Hnp, Hni, Hw.
  rewrite Hnone in Hi, Hni. simpl in Hi, Hni.
  assert (seen_issues b' = seen_issues b) as Hi'.
  { rewrite Hi. unfold issues_only. rewrite filter_nil, ids_nil. set_solver. }
  rewrite Hi' in Hw. done.
Qed.

Lemma unavailable_issues_isolated_witness :
  notified PullRequest
    (cycle_events Examples.cfg
       (Examples.world_of (Examples.listing [Examples.t2; Examples.t1])
          Examples.rate_limited)
       Examples.fresh)
  = [Examples.t1; Examples.t2].
Proof.
  apply (unavailable_issues_isolated Examples.cfg
           (Examples.world_of (Examples.listing [Examples.t2; Examples.t1])
              Examples.rate_limited)
           Examples.fresh).
  reflexivity.
Defined.

(** ** Sending, saving and loading *)

(** X8. [send_discord_message] never raises and touches neither the seen
    sets nor the state file. When the channel is not found it prints that
    and hands nothing to [channel.send]; when the channel is found it sends
    the embed once, and a send that raises is printed and swallowed. *)
Theorem send_discord_message_contained (cfg : config) (W : world) (k : kind)
    (x : item) (e : embed) (b : bot) :
  let c := DISCORD_CHANNEL_ID cfg in
  let t1 := trace b ++ [EvNotify k x e] in
  exists t,
    send_discord_message cfg W k x e b
    = (Ok tt,
       extend (EvNotify k x e :: EvGetChannel c (get_channel W t1 c) :: t) b)
    /\ (get_channel W t1 c = false -> t = [EvPrint (LogChannelNotFound c)])
    /\ (get_channel W t1 c = true ->
        channel_send W (t1 ++ [EvGetChannel c true]) e = Ok tt ->
        t = [EvSend e (Ok tt)])
    /\ (forall err,
        get_channel W t1 c = true ->
        channel_send W (t1 ++ [EvGetChannel c true]) e = Raise err ->
        t = [EvSend e (Raise err); EvPrint (LogSendError err)]).
Proof.
  intros c t1.
  unfold send_discord_message, emit, modify, try_except, bot_get_channel.
  unfold mbind, M_bind. simpl. fold c. fold t1.
  destruct (get_channel W t1 c) eqn:Hch.
  - unfold send. simpl. rewrite <- !app_assoc. simpl.
    change (trace b ++ [EvNotify k x e; EvGetChannel c true])
      with (trace b ++ [EvNotify k x e] ++ [EvGetChannel c true]).
    rewrite app_assoc. fold t1.
    destruct (channel_send W (t1 ++ [EvGetChannel c true]) e) as [[]|err].
    + exists [EvSend e (Ok tt)]. split; [|done].
      unfold extend, add_event; simpl. by rewrite <- !app_assoc.
    + exists [EvSend e (Raise err); EvPrint (LogSendError err)].
      split; [|split; [done|split; [done|]]].
      * unfold print, emit, modify, extend, add_event; simpl.
        by rewrite <- !app_assoc.
      * by intros err' _ [= ->].
  - exists [EvPrint (LogChannelNotFound c)]. split; [|done].
    unfold print, emit, modify, extend, add_event; simpl.
    by rewrite <- !app_assoc.
Qed.

Lemma send_discord_message_contained_witness :
  snd (send_discord_message Examples.cfg Examples.small_repo PullRequest
         Examples.t1 (create_pr_embed Examples.cfg Examples.t1) Examples.fresh)
  = extend [EvNotify PullRequest Examples.t1
              (create_pr_embed Examples.cfg Examples.t1);
            EvGetChannel 42 true;
            EvSend (create_pr_embed Examples.cfg Examples.t1)
              (Raise DiscordException);
            EvPrint (LogSendError DiscordException)] Examples.fresh.
Proof.
  destruct (send_discord_message_contained Examples.cfg Examples.small_repo
              PullRequest Examples.t1
              (create_pr_embed Examples.cfg Examples.t1) Examples.fresh)
    as (t & Hrun & _ & _ & Hraise).
  rewrite Hrun. simpl snd.
  rewrite (Hraise DiscordException eq_refl eq_refl). reflexivity.
Defined.

(** X9. Saving and loading round-trip: after a save whose write succeeds,
    [load_seen_items] returns normally and leaves exactly the saved sets in
    memory, whatever the memory held when it was called. *)
Theorem save_load_round_trip (W : world) (b : bot) (sp si : gset Z) :
  file_write W (trace b) (elements (seen_prs b)) (elements (seen_issues b))
    = None ->
  let saved := exec (save_seen_items W) b in
  let memory := set_seen_prs sp (set_seen_issues si saved) in
  eval load_seen_items memory = Ok tt
  /\ seen_prs (exec load_seen_items memory) = seen_prs b
  /\ seen_issues (exec load_seen_items memory) = seen_issues b
  /\ seen_file (exec load_seen_items memory) = seen_file saved.
Proof.
  intros Hw saved memory.
  assert (seen_file memory
          = FileObject (Some (JIds (elements (seen_prs b))))
              (Some (JIds (elements (seen_issues b))))) as Hf.
  { unfold memory, saved, exec. rewrite save_seen_items_run.
    unfold saved_file. by rewrite Hw. }
  unfold eval, exec, load_seen_items, try_except, read_seen_file.
  unfold mbind, M_bind, gets. rewrite Hf. simpl.
  by rewrite !list_to_set_elements_L.
Qed.

Lemma save_load_round_trip_witness :
  seen_prs
    (exec load_seen_items
       (set_seen_prs ∅ (set_seen_issues ∅
          (exec (save_seen_items Examples.small_repo)
             {| seen_prs := {[11; 12]}; seen_issues := {[13]};
                seen_file := FileAbsent; trace := [] |}))))
  = {[11; 12]}.
Proof.
  exact (proj1 (proj2 (save_load_round_trip Examples.small_repo
           {| seen_prs := {[11; 12]}; seen_issues := {[13]};
              seen_file := FileAbsent; trace := [] |} ∅ ∅ eq_refl))).
Defined.

(** X10. Deduplication survives a restart: when the state file holds the
    sets a cycle wrote (as it does when the write succeeded), a new process
    that starts with empty sets and loads the file has the same seen sets
    again, and its next cycle notifies about none of the items the earlier
    cycle fetched. *)
Theorem restart_does_not_renotify (cfg : config) (W : world) (b : bot) :
  let b1 := step cfg W OpCheck b in
  seen_file b1
  = FileObject (Some (JIds (elements (seen_prs b1))))
      (Some (JIds (elements (seen_issues b1)))) ->
  let b2 := step cfg W OpReady (restart b1) in
  seen_prs b2 = seen_prs b1 /\ seen_issues b2 = seen_issues b1
  /\ (forall x,
        x ∈ default [] (fetched (pulls_answer cfg W b)) ->
        count_id (id x) (notified PullRequest (cycle_events cfg W b2)) = 0%nat)
  /\ (forall x,
        x ∈ issues_only (default [] (fetched (issues_answer cfg W b))) ->
        count_id (id x) (notified Issue (cycle_events cfg W b2)) = 0%nat).
Proof.
  intros b1 Hf b2.
  assert (seen_prs b2 = seen_prs b1 /\ seen_issues b2 = seen_issues b1)
    as [Hp Hi].
  { unfold b2, step, run_op, load_seen_items, try_except, read_seen_file.
    unfold mbind, M_bind, gets.
    change (seen_file (restart b1)) with (seen_file b1). rewrite Hf. simpl.
    by rewrite !list_to_set_elements_L. }
  destruct (cycle_summary cfg W b)
    as (t & b' & _ & _ & _ & _ & _ & _ & Hsp & Hsi & _).
  fold b1 in Hsp, Hsi.
  assert (forall k i, i ∈ seen k b2 ->
            count_id i (notified k (cycle_events cfg W b2)) = 0%nat) as Hseen.
  { intros k i Hin. pose proof (cycle_potential cfg W k i b2) as Hpot.
    rewrite (decide_True _ _ Hin) in Hpot. lia. }
  split; [done|]. split; [done|]. split.
  - intros x Hx. apply (Hseen PullRequest). simpl. rewrite Hp, Hsp.
    unfold ids. apply elem_of_union_l, elem_of_list_to_set, list_elem_of_fmap.
    eauto.
  - intros x Hx. apply (Hseen Issue). simpl. rewrite Hi, Hsi.
    unfold ids. apply elem_of_union_l, elem_of_list_to_set, list_elem_of_fmap.
    eauto.
Qed.

Lemma restart_does_not_renotify_witness :
  seen_prs
    (step Examples.cfg Examples.small_repo OpReady
       (restart (step Examples.cfg Examples.small_repo OpCheck Examples.fresh)))
  = seen_prs (step Examples.cfg Examples.small_repo OpCheck Examples.fresh).
Proof.
  apply (proj1 (restart_does_not_renotify Examples.cfg Examples.small_repo
                  Examples.fresh eq_refl)).
Defined.

(** X11. A load that succeeds replaces what is in memory, it does not merge:
    with no state file the memory is left as it is and nothing is printed;
    with a state file holding lists, each seen set becomes the set of the
    list under its key, a missing key counting as the empty list, and the
    sizes are printed. *)
Theorem load_replaces_memory (b : bot) :
  (seen_file b = FileAbsent -> load_seen_items b = (Ok tt, b))
  /\ (forall p i lp li,
        seen_file b = FileObject p i ->
        default (JIds []) p = JIds lp ->
        default (JIds []) i = JIds li ->
        load_seen_items b
        = (Ok tt,
           {| seen_prs := list_to_set lp; seen_issues := list_to_set li;
              seen_file := seen_file b;
              trace := trace b
                       ++ [EvPrint (LogLoaded
                                      (size (list_to_set lp : gset Z))
                                      (size (list_to_set li : gset Z)))] |})).
Proof.
  split.
  - intros Hf. unfold load_seen_items, try_except, read_seen_file.
    unfold mbind, M_bind, gets. rewrite Hf. done.
  - intros p i lp li Hf Hp Hi.
    unfold load_seen_items, try_except, read_seen_file.
    unfold mbind, M_bind, gets. rewrite Hf. simpl. rewrite Hp, Hi. simpl.
    unfold print, emit, modify, add_event. simpl. by rewrite <- Hf.
Qed.

Lemma load_replaces_memory_witness :
  seen_prs (exec load_seen_items
              {| seen_prs := {[1]}; seen_issues := {[2]};
                 seen_file := FileObject (Some (JIds [5; 5; 6])) None;
                 trace := [] |}) = {[5; 6]}
  /\ seen_issues (exec load_seen_items
                    {| seen_prs := {[1]}; seen_issues := {[2]};
                       seen_file := FileObject (Some (JIds [5; 5; 6])) None;
                       trace := [] |}) = ∅.
Proof.
  unfold exec.
  rewrite (proj2 (load_replaces_memory
                    {| seen_prs := {[1]}; seen_issues := {[2]};
                       seen_file := FileObject (Some (JIds [5; 5; 6])) None;
                       trace := [] |})
             (Some (JIds [5; 5; 6])) None [5; 5; 6] [] eq_refl eq_refl eq_refl).
  split; apply (bool_decide_unpack _); vm_compute; exact I.
Defined.

(** X12. [save_seen_items] never raises and never changes the seen sets. It
    makes one write, of two duplicate-free lists holding exactly the seen
    identifiers. When the write succeeds the state file holds these lists;
    when it raises, the error is printed and the memory is kept. *)
Theorem save_never_loses_memory (W : world) (b : bot) :
  let prs := elements (seen_prs b) in
  let issues := elements (seen_issues b) in
  let b' := exec (save_seen_items W) b in
  eval (save_seen_items W) b = Ok tt
  /\ seen_prs b' = seen_prs b /\ seen_issues b' = seen_issues b
  /\ NoDup prs /\ NoDup issues
  /\ list_to_set prs = seen_prs b /\ list_to_set issues = seen_issues b
  /\ (file_write W (trace b) prs issues = None ->
      since (trace b) (trace b') = [EvWrite prs issues (Ok tt)]
      /\ seen_file b' = FileObject (Some (JIds prs)) (Some (JIds issues)))
  /\ (forall e leftover,
        file_write W (trace b) prs issues = Some (e, leftover) ->
        since (trace b) (trace b')
        = [EvWrite prs issues (Raise e); EvPrint (LogSaveError e)]
        /\ seen_file b' = leftover).
Proof.
  intros prs issues b'. unfold b', eval, exec.
  rewrite save_seen_items_run. simpl. rewrite since_app.
  unfold save_events, saved_file. fold prs issues.
  split; [done|]. split; [done|]. split; [done|].
  split; [apply NoDup_elements|]. split; [apply NoDup_elements|].
  split; [apply list_to_set_elements_L|].
  split; [apply list_to_set_elements_L|].
  split.
  - by intros ->.
  - by intros e leftover ->.
Qed.

Lemma save_never_loses_memory_witness :
  seen_file
    (exec (save_seen_items
             (Examples.read_only (Examples.listing []) (Examples.listing [])))
       {| seen_prs := {[11]}; seen_issues := ∅;
          seen_file := FileAbsent; trace := [] |}) = FileMalformed.
Proof.
  apply (proj2 (proj2 (proj2 (proj2 (proj2 (proj2 (proj2 (proj2
           (save_never_loses_memory
              (Examples.read_only (Examples.listing []) (Examples.listing []))
              {| seen_prs := {[11]}; seen_issues := ∅;
                 seen_file := FileAbsent; trace := [] |}))))))))
           OSError FileMalformed).
  reflexivity.
Defined.

(** ** Commands *)

(** X13. A reset that is refused changes nothing: from a user who is not an
    administrator the command raises [MissingPermissions], and from an
    administrator in another channel it returns normally; in both cases the
    sets, the state file and the trace are as before (nothing is written,
    nothing is replied). *)
Theorem reset_refused_inert (cfg : config) (W : world) (ctx : context)
    (b : bot) :
  (ctx_administrator ctx = false ->
   reset cfg W ctx b = (Raise MissingPermissions, b))
  /\ (ctx_administrator ctx = true ->
      ctx_channel_id ctx <> DISCORD_CHANNEL_ID cfg ->
      reset cfg W ctx b = (Ok tt, b)).
Proof.
  unfold reset. split.
  - by intros ->.
  - intros -> Hch. apply Z.eqb_neq in Hch. by rewrite Hch.
Qed.

Lemma reset_refused_inert_witness :
  reset Examples.cfg Examples.small_repo Examples.guest_here
    (step Examples.cfg Examples.small_repo OpCheck Examples.fresh)
  = (Raise MissingPermissions,
     step Examples.cfg Examples.small_repo OpCheck Examples.fresh)
  /\ reset Examples.cfg Examples.small_repo Examples.admin_elsewhere
       (step Examples.cfg Examples.small_repo OpCheck Examples.fresh)
     = (Ok tt, step Examples.cfg Examples.small_repo OpCheck Examples.fresh).
Proof.
  split.
  - apply (proj1 (reset_refused_inert Examples.cfg Examples.small_repo
                    Examples.guest_here _)).
    reflexivity.
  - apply (proj2 (reset_refused_inert Examples.cfg Examples.small_repo
                    Examples.admin_elsewhere _)).
    + reflexivity.
    + discriminate.
Defined.

(** X14. The status command answers only in the configured channel, with
    the repository, the sizes of the two seen sets and the interval; it
    never changes the sets or the state file, and elsewhere it does nothing
    at all. Right after an effective reset it reports 0 and 0. *)
Theorem status_reports_sizes (cfg : config) (W : world) (ctx : context)
    (b : bot) :
  let b' := exec (status_command cfg W ctx) b in
  seen_prs b' = seen_prs b /\ seen_issues b' = seen_issues b
  /\ seen_file b' = seen_file b
  /\ (ctx_channel_id ctx <> DISCORD_CHANNEL_ID cfg ->
      status_command cfg W ctx b = (Ok tt, b))
  /\ (ctx_channel_id ctx = DISCORD_CHANNEL_ID cfg ->
      replies (since (trace b) (trace b'))
      = [ReplyStatus (GITHUB_REPO cfg) (size (seen_prs b))
           (size (seen_issues b)) (CHECK_INTERVAL cfg)])
  /\ (forall admin,
        ctx_channel_id ctx = DISCORD_CHANNEL_ID cfg ->
        ctx_administrator admin = true ->
        ctx_channel_id admin = DISCORD_CHANNEL_ID cfg ->
        let cleared := step cfg W (OpReset admin) b in
        replies (since (trace cleared)
                   (trace (exec (status_command cfg W ctx) cleared)))
        = [ReplyStatus (GITHUB_REPO cfg) 0 0 (CHECK_INTERVAL cfg)]).
Proof.
  intros b'.
  assert (forall s : bot,
    ctx_channel_id ctx = DISCORD_CHANNEL_ID cfg ->
    replies (since (trace s) (trace (exec (status_command cfg W ctx) s)))
    = [ReplyStatus (GITHUB_REPO cfg) (size (seen_prs s))
         (size (seen_issues s)) (CHECK_INTERVAL cfg)]) as Hreply.
  { intros s Hch. unfold exec, status_command. rewrite Hch, Z.eqb_refl.
    unfold mbind, M_bind, gets, reply_to. simpl. by rewrite since_app. }
  assert (seen_prs b' = seen_prs b /\ seen_issues b' = seen_issues b
          /\ seen_file b' = seen_file b) as (Hp & Hi & Hf).
  { unfold b', exec, status_command.
    by destruct (ctx_channel_id ctx =? DISCORD_CHANNEL_ID cfg). }
  split; [done|]. split; [done|]. split; [done|]. split; [|split].
  - intros Hch. apply Z.eqb_neq in Hch. unfold status_command.
    by rewrite Hch.
  - apply Hreply.
  - intros admin Hch Hadm Hach cleared. rewrite (Hreply cleared Hch).
    unfold cleared. rewrite reset_run by done. reflexivity.
Qed.

Lemma status_reports_sizes_witness :
  replies
    (since (trace (step Examples.cfg Examples.small_repo OpCheck Examples.fresh))
       (trace (exec (status_command Examples.cfg Examples.small_repo
                       Examples.admin_here)
                 (step Examples.cfg Examples.small_repo OpCheck
                    Examples.fresh))))
  = [ReplyStatus (lit "octo/repo") 1 1 60].
Proof.
  rewrite (proj1 (proj2 (proj2 (proj2 (proj2
             (status_reports_sizes Examples.cfg Examples.small_repo
                Examples.admin_here
                (step Examples.cfg Examples.small_repo OpCheck
                   Examples.fresh))))))
             eq_refl).
  vm_compute. reflexivity.
Defined.

(** X15. An effective reset clears and saves before it replies: its events
    are the write of two empty lists (with the error line when the write
    raises) followed by one reply, and the command ends as the reply ends.
    So when the reply raises, the command raises too, but the sets are
    already empty and the write has been made. *)
Theorem reset_replies_last (cfg : config) (W : world) (ctx : context)
    (b : bot) :
  ctx_administrator ctx = true ->
  ctx_channel_id ctx = DISCORD_CHANNEL_ID cfg ->
  let b' := exec (reset cfg W ctx) b in
  let ev := since (trace b) (trace b') in
  exists answer,
    eval (reset cfg W ctx) b = answer
    /\ writes ev = [([], [])]
    /\ replies ev = [ReplyReset]
    /\ last ev = Some (EvReply ReplyReset answer)
    /\ seen_prs b' = ∅ /\ seen_issues b' = ∅.
Proof.
  intros Hadm Hch b' ev.
  set (cleared := set_seen_issues ∅ (set_seen_prs ∅ b)).
  assert (reset cfg W ctx b
          = (ctx_send W (trace b ++ save_events W cleared) ReplyReset,
             extend (save_events W cleared
                     ++ [EvReply ReplyReset
                           (ctx_send W (trace b ++ save_events W cleared)
                              ReplyReset)])
               (set_seen_file (saved_file W cleared) cleared))) as Hrun.
  { unfold reset. rewrite Hadm, Hch, Z.eqb_refl.
    assert (seen_clear PullRequest b = (Ok tt, set_seen_prs ∅ b)) as H1
      by reflexivity.
    assert (seen_clear Issue (set_seen_prs ∅ b) = (Ok tt, cleared)) as H2
      by reflexivity.
    rewrite (bind_run _ _ _ _ _ H1), (bind_run _ _ _ _ _ H2),
      (bind_run _ _ _ _ _ (save_seen_items_run W cleared)).
    unfold reply_to, extend, add_event; simpl. by rewrite <- app_assoc. }
  exists (ctx_send W (trace b ++ save_events W cleared) ReplyReset).
  unfold ev, b', eval, exec. rewrite Hrun. simpl. rewrite since_app.
  destruct (save_events_cleared W cleared eq_refl eq_refl) as [Hev _].
  rewrite Hev.
  split; [done|].
  destruct (file_write W (trace cleared) [] []) as [[e leftover]|]; done.
Qed.

Lemma reset_replies_last_witness :
  writes
    (since (trace (step Examples.cfg Examples.small_repo OpCheck Examples.fresh))
       (trace (exec (reset Examples.cfg Examples.small_repo Examples.admin_here)
                 (step Examples.cfg Examples.small_repo OpCheck
                    Examples.fresh))))
  = [([], [])].
Proof.
  destruct (reset_replies_last Examples.cfg Examples.small_repo
              Examples.admin_here
              (step Examples.cfg Examples.small_repo OpCheck Examples.fresh)
              eq_refl eq_refl) as (answer & _ & Hw & _).
  exact Hw.
Defined.

(** X20. First run: with no state file, a process that starts and loads has
    two empty seen sets and prints nothing, and its first cycle notifies
    about every identifier it fetches; when the identifiers of a listing are
    distinct, each of its items is notified, oldest first. *)
Theorem first_run_announces_all (cfg : config) (W : world) (b : bot) :
  seen_file b = FileAbsent ->
  let b0 := step cfg W OpReady (restart b) in
  let prs := default [] (fetched (pulls_answer cfg W b0)) in
  let issues := issues_only (default [] (fetched (issues_answer cfg W b0))) in
  let sent := notified PullRequest (cycle_events cfg W b0) in
  let sent' := notified Issue (cycle_events cfg W b0) in
  b0 = restart b
  /\ (forall x, x ∈ prs -> exists y, y ∈ sent /\ id y = id x)
  /\ (forall x, x ∈ issues -> exists y, y ∈ sent' /\ id y = id x)
  /\ (NoDup (id <$> prs) -> sent = rev prs)
  /\ (NoDup (id <$> issues) -> sent' = rev issues).
Proof.
  intros Hf b0 prs issues sent sent'.
  assert (b0 = restart b) as Hb0.
  { unfold b0, step, run_op, load_seen_items, try_except, read_seen_file.
    unfold mbind, M_bind, gets.
    change (seen_file (restart b)) with (seen_file b). by rewrite Hf. }
  split; [done|].
  apply cycle_from_empty; by rewrite Hb0.
Qed.

Lemma first_run_announces_all_witness :
  notified PullRequest
    (cycle_events Examples.cfg
       (Examples.world_of (Examples.listing [Examples.t2; Examples.t1])
          (Examples.listing []))
       (step Examples.cfg
          (Examples.world_of (Examples.listing [Examples.t2; Examples.t1])
             (Examples.listing []))
          OpReady (restart Examples.fresh)))
  = [Examples.t1; Examples.t2].
Proof.
  apply (proj1 (proj2 (proj2 (proj2
           (first_run_announces_all Examples.cfg
              (Examples.world_of (Examples.listing [Examples.t2; Examples.t1])
                 (Examples.listing []))
              Examples.fresh eq_refl))))).
  apply (bool_decide_unpack _). vm_compute. exact I.
Defined.

(** ** The one-shot notifier *)

(** X16. [main] of the one-shot notifier posts only for an opened pull
    request or an opened issue: any other action and any other event name
    is skipped. What it posts is a single embed, built by [format_pr] for
    the event name [pull_request] and by [format_issue] for [issues]. The
    run ends normally when the webhook answers 200 or 204, and with
    [RuntimeError] for any other status. *)
Theorem webhook_run_outcomes (post : list Webhook.embed -> WebhookRun.post_answer)
    (event_name : str) (ev : Webhook.event) :
  (Webhook.action ev <> lit "opened" ->
   WebhookRun.run post event_name ev = WebhookRun.Skipped)
  /\ (event_name <> lit "pull_request" -> event_name <> lit "issues" ->
      WebhookRun.run post event_name ev = WebhookRun.Skipped)
  /\ (Webhook.action ev = lit "opened" ->
      (event_name = lit "pull_request" ->
       Webhook.main event_name ev = Some (Webhook.format_pr ev))
      /\ (event_name = lit "issues" ->
          Webhook.main event_name ev = Some (Webhook.format_issue ev)))
  /\ (forall payload,
        Webhook.main event_name ev = Some payload ->
        length payload = 1%nat
        /\ (post payload = WebhookRun.PostRaises ->
            WebhookRun.run post event_name ev
            = WebhookRun.ConnectionError payload)
        /\ (forall c,
              post payload = WebhookRun.PostStatus c ->
              (c = 200 \/ c = 204 ->
               WebhookRun.run post event_name ev = WebhookRun.Posted payload)
              /\ (c <> 200 -> c <> 204 ->
                  WebhookRun.run post event_name ev
                  = WebhookRun.RuntimeError payload c))).
Proof.
  split; [|split; [|split]].
  - intros Hact. unfold WebhookRun.run, Webhook.main.
    rewrite !decide_False by tauto. done.
  - intros Hpr Hiss. unfold WebhookRun.run, Webhook.main.
    rewrite !decide_False by tauto. done.
  - intros Hact. split.
    + intros ->. unfold Webhook.main. by rewrite decide_True.
    + intros ->. unfold Webhook.main.
      rewrite decide_False by (intros [Hne _]; vm_compute in Hne; discriminate).
      by rewrite decide_True.
  - intros payload Hmain.
    assert (length payload = 1%nat) as Hlen.
    { unfold Webhook.main in Hmain. repeat case_decide; by simplify_eq. }
    split; [done|]. unfold WebhookRun.run. rewrite Hmain. split.
    + by intros ->.
    + intros c ->. unfold Webhook.send_to_discord. split.
      * intros [-> | ->]; done.
      * intros H200 H204. apply Z.eqb_neq in H200, H204.
        by rewrite H200, H204.
Qed.

Lemma webhook_run_outcomes_witness :
  WebhookRun.run (fun _ => WebhookRun.PostStatus 404) (lit "issues")
    (Examples.event_of Examples.item_plain)
  = WebhookRun.RuntimeError
      (Webhook.format_issue (Examples.event_of Examples.item_plain)) 404.
Proof.
  apply (proj2 (proj2 (proj2
           (webhook_run_outcomes (fun _ => WebhookRun.PostStatus 404)
              (lit "issues") (Examples.event_of Examples.item_plain))))
           (Webhook.format_issue (Examples.event_of Examples.item_plain))
           eq_refl).
  - reflexivity.
  - discriminate.
  - discriminate.
Defined.

(** ** The embeds, again *)

Lemma join_empty (sep : str) (l : list str) :
  sep <> [] -> (join sep l = [] <-> l = [] \/ l = [[]]).
Proof.
  intros Hsep. destruct l as [|x [|y r]]; simpl.
  - tauto.
  - split; [intros ->; by right|]. by intros [?|[= ->]].
  - split.
    + intros H. apply app_eq_nil in H as [_ H].
      apply app_eq_nil in H as [H _]. done.
    + by intros [?|?].
Qed.

(** X17. The "Labels" field is left out exactly when the item has no label
    or a single label with an empty name; otherwise it is one field, not
    inline, whose value is the label names joined by [", "]. *)
Theorem labels_field_omitted (x : item) :
  (labels_field x = [] <-> labels x = [] \/ labels x = [[]])
  /\ (labels_field x <> [] ->
      labels_field x = [Field (lit "Labels") (join (lit ", ") (labels x)) false]).
Proof.
  assert (lit ", " <> []) as Hsep by discriminate.
  pose proof (join_empty (lit ", ") (labels x) Hsep) as Hjoin.
  unfold labels_field.
  destruct (labels x) as [|n r] eqn:Hl.
  - split; [tauto|done].
  - destruct (join (lit ", ") (n :: r)) as [|c j] eqn:Hj.
    + split; [|done]. split; [intros _; by apply Hjoin|done].
    + split; [|done].
      split; [done|]. intros H. apply Hjoin in H. done.
Qed.

Lemma labels_field_omitted_witness :
  labels_field Examples.empty_label = []
  /\ labels_field Examples.two_labels
     = [Field (lit "Labels") (lit "bug, ui") false].
Proof.
  split.
  - apply (proj1 (labels_field_omitted Examples.empty_label)).
    right. reflexivity.
  - apply (proj2 (labels_field_omitted Examples.two_labels)).
    discriminate.
Defined.

(** X18. The description of an embed is never empty. The bot's has at most
    503 characters, and exactly 503 when the body is longer than 500; the
    webhook's has at most 500. *)
Theorem description_bounds (cfg : config) (x : item) (ev : Webhook.event) :
  (0 < length (description (create_pr_embed cfg x)) <= 503)%nat
  /\ (0 < length (description (create_issue_embed cfg x)) <= 503)%nat
  /\ (forall s, body x = Some s -> (500 < length s)%nat ->
        length (description (create_pr_embed cfg x)) = 503%nat
        /\ length (description (create_issue_embed cfg x)) = 503%nat)
  /\ Forall (fun w => (0 < length (Webhook.description w) <= 500)%nat)
       (Webhook.format_pr ev ++ Webhook.format_issue ev).
Proof.
  assert (forall o : option str,
    (0 < length (if truthy o then slice_to 500 (default [] o)
                 else no_description) <= 500)%nat) as Hhead.
  { intros [[|c s]|]; [vm_compute; lia| |vm_compute; lia].
    change (truthy (Some (c :: s))) with true. cbv iota.
    change (default [] (Some (c :: s))) with (c :: s).
    unfold slice_to. rewrite length_firstn. simpl length. lia. }
  assert ((0 < length (embed_description x) <= 503)%nat) as Hbot.
  { unfold embed_description. rewrite length_app.
    specialize (Hhead (body x)).
    destruct (truthy (body x) && (500 <? len (default [] (body x))));
      [change (length ellipsis) with 3%nat
      |change (length (@nil N)) with 0%nat]; lia. }
  split; [done|]. split; [done|]. split.
  - intros s Hs Hlen.
    assert (length (embed_description x) = 503%nat) as H503.
    { unfold embed_description, truthy, len, slice_to. rewrite Hs.
      destruct s as [|c s]; [simpl in Hlen; lia|]. simpl default.
      rewrite (proj2 (Z.ltb_lt _ _)) by lia. simpl andb. cbv iota.
      rewrite length_app, length_firstn.
      change (length ellipsis) with 3%nat. lia. }
    done.
  - unfold Webhook.format_pr, Webhook.format_issue. simpl app.
    apply Forall_cons. split; [apply Hhead|].
    apply Forall_cons. split; [apply Hhead|]. constructor.
Qed.

Lemma description_bounds_witness :
  length (description (create_pr_embed Examples.cfg Examples.item_600))
  = 503%nat.
Proof.
  assert (500 < length Examples.body_600)%nat as Hlen by (vm_compute; lia).
  exact (proj1 (proj1 (proj2 (proj2
           (description_bounds Examples.cfg Examples.item_600
              (Examples.event_of Examples.item_600))))
           Examples.body_600 eq_refl Hlen)).
Defined.

Lemma replace_char_clean (c : N) (by_ s : str) :
  c ∉ by_ -> c ∉ replace_char c by_ s.
Proof.
  intros Hby. unfold replace_char. induction s as [|x s IH]; simpl.
  - apply not_elem_of_nil.
  - rewrite elem_of_app. destruct (N.eqb_spec x c) as [->|Hne].
    + tauto.
    + rewrite list_elem_of_singleton. intros [->|?]; tauto.
Qed.

Lemma replace_char_absent (c : N) (by_ s : str) :
  c ∉ s -> replace_char c by_ s = s.
Proof.
  unfold replace_char. induction s as [|x s IH]; simpl; [done|].
  intros Hs. apply not_elem_of_cons in Hs as [Hne Hs].
  destruct (N.eqb_spec x c) as [->|_]; [done|].
  simpl. by rewrite IH.
Qed.

Lemma replace_char_app (c : N) (by_ s s' : str) :
  replace_char c by_ (s ++ s') = replace_char c by_ s ++ replace_char c by_ s'.
Proof. unfold replace_char. apply flat_map_app. Qed.

(** X19. The timestamp text of an embed holds no [Z]: every [Z] of
    [created_at] is replaced by [+00:00]. For a [created_at] that ends in
    its only [Z], as the API writes it, the text is [created_at] with that
    final [Z] replaced; a [created_at] without [Z] is passed on as it is. *)
Theorem timestamp_without_z (cfg : config) (x : item) :
  timestamp (create_pr_embed cfg x) = timestamp (create_issue_embed cfg x)
  /\ (90%N ∉ timestamp (create_pr_embed cfg x))
  /\ (forall s, created_at x = s ++ [90%N] -> 90%N ∉ s ->
        timestamp (create_pr_embed cfg x) = s ++ lit "+00:00")
  /\ (90%N ∉ created_at x -> timestamp (create_pr_embed cfg x) = created_at x).
Proof.
  split; [done|]. simpl. unfold iso_timestamp. split; [|split].
  - apply replace_char_clean. vm_compute.
    intros H. repeat (apply elem_of_cons in H as [H|H]; [discriminate|]).
    by apply elem_of_nil in H.
  - intros s -> Hs.
    rewrite replace_char_app, (replace_char_absent _ _ s Hs). done.
  - apply replace_char_absent.
Qed.

Lemma timestamp_without_z_witness :
  timestamp (create_pr_embed Examples.cfg Examples.t1)
  = lit "2024-05-01T10:00:00" ++ lit "+00:00".
Proof.
  apply (proj1 (proj2 (proj2 (timestamp_without_z Examples.cfg Examples.t1)))
           (lit "2024-05-01T10:00:00")).
  - reflexivity.
  - apply (bool_decide_unpack _). vm_compute. exact I.
Defined.
